(** * Smart Connections lookup tool: dispatcher, cutoff filter, formatter

    A shallow embedding of [SmartConnectionsLookupTool] and of
    [get_nearest_until_next_dev_exceeds_std_dev] (the JavaScript shipped in
    [dist/utils/cache-manager.d.ts]).

    Conventions of the embedding.
    - A JavaScript property that may be [undefined] is an [option].
    - Scores are JavaScript numbers; they are modelled by exact rationals
      [Q].  The only irrational operation of the source, [Math.sqrt], occurs
      in one comparison, which is modelled by comparing squares.  The
      doubles of the source round: where a gap equals the deviation, or
      comes within rounding of it, the source can cut one way and the exact
      computation the other.
    - [await]ed calls into the backing collections are sequential; every call
      that is actually issued is recorded in a call log (a writer monad), so
      that statements about what the dispatcher asks of its collections can
      be made.
    - A backing method is a function from its parameters to a [Reply]:
      it throws, resolves to something that is not an array, or resolves to
      an array of raw results. *)

From Stdlib Require Import String Ascii List Bool ZArith QArith Qabs Qpower Lia.
From Stdlib Require Import Reals Qreals Lra DecimalString.
Import ListNotations.

Local Open Scope string_scope.
Local Open Scope list_scope.
Local Open Scope Z_scope.

(** ** JavaScript values used by the tool *)

Module Js.

(** Truthiness of a string-valued property: [undefined] and [""] are falsy. *)
Definition truthy_str (s : option string) : bool :=
  match s with
  | Some s => negb (s =? "")%string
  | None => false
  end.

(** Truthiness of a number-valued property: [undefined] and [0] are falsy. *)
Definition truthy_num (q : option Q) : bool :=
  match q with
  | Some q => negb (Qeq_bool q 0)
  | None => false
  end.

(** An array (or any object) is truthy whenever it is present, also when
    it is empty. *)
Definition truthy_obj {A : Type} (o : option A) : bool :=
  match o with
  | Some _ => true
  | None => false
  end.

(** [a || b] on string-valued properties. *)
Definition or_str (a b : option string) : option string :=
  if truthy_str a then a else b.

(** [a || d] where [d] is a string literal. *)
Definition or_str_lit (a : option string) (d : string) : string :=
  match a with
  | Some s => if (s =? "")%string then d else s
  | None => d
  end.

(** [a || d] where [d] is an integer literal. *)
Definition or_int_lit (a : option Z) (d : Z) : Z :=
  match a with
  | Some z => if z =? 0 then d else z
  | None => d
  end.

(** A destructuring default, [const { k = dflt } = o]. *)
Definition default_to {A : Type} (dflt : A) (o : option A) : A :=
  match o with
  | Some v => v
  | None => dflt
  end.

(** [{ k: dflt, ...o }]: a key present in the spread object wins. *)
Definition spread_over {A : Type} (dflt : A) (o : option A) : A :=
  match o with
  | Some v => v
  | None => dflt
  end.

(** [arr.slice(0, e)] for an integer [e]: a negative [e] counts from the
    end of the array. *)
Definition slice0 {A : Type} (l : list A) (e : Z) : list A :=
  let len := Z.of_nat (length l) in
  let k := if e <? 0 then Z.max (len + e) 0 else Z.min e len in
  firstn (Z.to_nat k) l.

(** Template-literal rendering of a natural number. *)
Definition nat_to_string (n : nat) : string :=
  NilEmpty.string_of_uint (Nat.to_uint n).

End Js.

(** ** Raw results and formatted results *)

(** [result.data], of which only [content] is read. *)
Record Data := mkData { d_content : option string }.

(** A record as a backing collection returns it.  Only the properties that
    the tool reads, and the further content-carrying properties a collection
    may set, are represented. *)
Record RawResult := mkRaw {
  r_key : option string;
  r_id : option string;
  r_score : option Q;
  r_sim : option Q;
  r_content : option string;
  r_data : option Data;
  r_text : option string;
  r_raw_content : option string;
  r_source_content : option string;
  r_block_content : option string;
  r_path : option string;
  r_collection_type : option string;
  r_breadcrumbs : option string;
  r_size : option Z;
  r_last_modified : option Z
}.

(** [{ ...result, collection_type }] *)
Definition with_collection_type (ct : string) (r : RawResult) : RawResult :=
  {| r_key := r_key r; r_id := r_id r; r_score := r_score r; r_sim := r_sim r;
     r_content := r_content r; r_data := r_data r; r_text := r_text r;
     r_raw_content := r_raw_content r;
     r_source_content := r_source_content r;
     r_block_content := r_block_content r;
     r_path := r_path r; r_collection_type := Some ct;
     r_breadcrumbs := r_breadcrumbs r; r_size := r_size r;
     r_last_modified := r_last_modified r |}.

(** [r.score || r.sim || 0] *)
Definition score_of (r : RawResult) : Q :=
  if Js.truthy_num (r_score r) then
    match r_score r with Some q => q | None => 0%Q end
  else if Js.truthy_num (r_sim r) then
    match r_sim r with Some q => q | None => 0%Q end
  else 0%Q.

(** [result.data?.content] *)
Definition data_content (r : RawResult) : option string :=
  match r_data r with
  | Some d => d_content d
  | None => None
  end.

(** [result.content || result.data?.content || result.text || ''] *)
Definition content_of (r : RawResult) : string :=
  Js.or_str_lit
    (Js.or_str (Js.or_str (r_content r) (data_content r)) (r_text r)) "".

(** One element of [formattedResults]. *)
Record FormattedResult := mkFormatted {
  f_key : option string;
  f_score : Q;
  f_content : string;
  f_path : option string;
  f_type : string;
  f_breadcrumbs : option string;
  f_size : option Z;
  f_last_modified : option Z
}.

Definition formatResult (result : RawResult) : FormattedResult :=
  {| f_key := Js.or_str (r_key result) (r_id result);
     f_score := score_of result;
     f_content := content_of result;
     f_path := Js.or_str (r_path result) (r_key result);
     f_type := Js.or_str_lit (r_collection_type result) "unknown";
     f_breadcrumbs := r_breadcrumbs result;
     f_size := r_size result;
     f_last_modified := r_last_modified result |}.

(** ** Statistical cutoff filter *)

Module Cutoff.

Local Open Scope Q_scope.

Definition scores_of (results : list RawResult) : list Q :=
  map score_of results.

Definition count (scores : list Q) : Q :=
  inject_Z (Z.of_nat (length scores)).

(** [scores.reduce((sum, score) => sum + score, 0) / scores.length] *)
Definition mean (scores : list Q) : Q :=
  fold_left (fun sum score => sum + score) scores 0 / count scores.

(** [scores.reduce((sum, score) => sum + Math.pow(score - mean, 2), 0)
     / scores.length] *)
Definition variance (scores : list Q) : Q :=
  let m := mean scores in
  fold_left (fun sum score => sum + (score - m) ^ 2) scores 0
    / count scores.

(** [Math.abs(currentScore - nextScore) > stdDev] with
    [stdDev = Math.sqrt(variance)].  The square root leaves the rationals;
    since both sides are non-negative the test is the same as
    [variance < (currentScore - nextScore)^2], which is what is computed. *)
Definition exceeds_std_dev (currentScore nextScore var : Q) : bool :=
  negb (Qle_bool (Qabs (currentScore - nextScore) ^ 2) var).

(** The [for] loop: index [i] runs over every position but the last one;
    [results[i]] is pushed, then the gap to position [i + 1] decides
    whether the loop breaks.  The argument is the part of [results] from
    index [i] on. *)
Fixpoint loop (var : Q) (results : list RawResult) : list RawResult :=
  match results with
  | current :: ((next :: _) as rest) =>
      current ::
        (if exceeds_std_dev (score_of current) (score_of next) var
         then []
         else loop var rest)
  | _ => []
  end.

Definition get_nearest_until_next_dev_exceeds_std_dev
    (results : list RawResult) : list RawResult :=
  if (length results <=? 2)%nat then results
  else
    let scores := scores_of results in
    let filtered := loop (variance scores) results in
    if (0 <? length filtered)%nat then filtered
    else Js.slice0 results (Z.of_nat (Nat.min 10 (length results))).

End Cutoff.

(** ** Backing collections and the call log *)

(** The object handed to [collection.lookup]: [{ hypotheticals }] plus the
    key filters when they are truthy. *)
Record LookupParams := mkLookupParams {
  lp_hypotheticals : list string;
  lp_key_starts_with : option string;
  lp_exclude_key_starts_with : option string
}.

(** The options object of [nearest] and [furthest]. *)
Record VectorOpts := mkVectorOpts {
  vo_limit : Z;
  vo_key_starts_with : option string;
  vo_exclude_key_starts_with : option string
}.

(** The object handed to [collection.search]. *)
Record SearchParams := mkSearchParams {
  sp_keywords : list string;
  sp_limit : Z;
  sp_key_starts_with : option string;
  sp_exclude_key_starts_with : option string
}.

(** What an awaited backing call does. *)
Inductive Reply :=
| Throws
| NotAnArray
| Items (results : list RawResult).

(** One backing collection.  Every method may be absent; [items] is the
    number of keys of the [items] object when there is one. *)
Record Collection := mkCollection {
  lookup : option (LookupParams -> Reply);
  search : option (SearchParams -> Reply);
  nearest : option (list Q -> VectorOpts -> Reply);
  furthest : option (list Q -> VectorOpts -> Reply);
  get : option (string -> option RawResult);
  items : option nat
}.

(** [plugin.env] *)
Record Env := mkEnv {
  smart_sources : option Collection;
  smart_blocks : option Collection
}.

(** [plugin]: the environment is absent until the plugin has loaded;
    [plugin.app.vault.getName()] is taken to succeed. *)
Record Plugin := mkPlugin {
  env : option Env;
  vault_name : string
}.

Inductive Target := Sources | Blocks.

(** The calls a collection can receive. *)
Inductive Call :=
| CallLookup (t : Target) (p : LookupParams)
| CallSearch (t : Target) (p : SearchParams)
| CallNearest (t : Target) (v : list Q) (o : VectorOpts)
| CallFurthest (t : Target) (v : list Q) (o : VectorOpts)
| CallGet (t : Target) (key : string).

(** A computation that returns a value and the calls it issued, in order. *)
Definition M (A : Type) : Type := (A * list Call)%type.

Definition ret {A : Type} (a : A) : M A := (a, []).

Definition bind {A B : Type} (m : M A) (f : A -> M B) : M B :=
  let '(a, l1) := m in
  let '(b, l2) := f a in
  (b, l1 ++ l2).

Definition tell (c : Call) : M unit := (tt, [c]).

Definition value {A : Type} (m : M A) : A := fst m.
Definition calls {A : Type} (m : M A) : list Call := snd m.

Declare Scope lookup_scope.
Delimit Scope lookup_scope with lookup.
Notation "x <- m ;; k" := (bind m (fun x => k))
  (at level 61, m at next level, right associativity) : lookup_scope.
Notation "m ;;; k" := (bind m (fun _ => k))
  (at level 61, right associativity) : lookup_scope.
Local Open Scope lookup_scope.

(** ** The request *)

(** [args.filter] as the caller sends it. *)
Record Filter := mkFilter {
  fl_limit : option Z;
  fl_collection : option string;
  fl_key_starts_with : option string;
  fl_exclude_key_starts_with : option string
}.

Definition empty_filter : Filter := mkFilter None None None None.

(** [args] *)
Record Args := mkArgs {
  a_query_type : option string;
  a_keywords : option (list string);
  a_direct_vector : option (list Q);
  a_vector_operation : option string;
  a_hypotheticals : option (list string);
  a_filter : option Filter
}.

(** [searchFilter] *)
Record SearchFilter := mkSearchFilter {
  sf_limit : Z;
  sf_collection : string;
  sf_key_starts_with : option string;
  sf_exclude_key_starts_with : option string
}.

(** [{ limit: filter.limit || 10, collection: filter.collection || 'both',
       ...filter }] *)
Definition make_searchFilter (filter : Filter) : SearchFilter :=
  {| sf_limit :=
       Js.spread_over (Js.or_int_lit (fl_limit filter) 10) (fl_limit filter);
     sf_collection :=
       Js.spread_over (Js.or_str_lit (fl_collection filter) "both")
         (fl_collection filter);
     sf_key_starts_with := fl_key_starts_with filter;
     sf_exclude_key_starts_with := fl_exclude_key_starts_with filter |}.

(** ** The search methods *)

(** [if (filter.k) lookupParams.k = filter.k] *)
Definition when_truthy (s : option string) : option string :=
  if Js.truthy_str s then s else None.

(** [searchCollection]: every failure of the lookup is caught and gives [[]]
    (a missing [lookup] method fails before any call is made). *)
Definition searchCollection (t : Target) (collection : Collection)
    (hypotheticals : list string) (filter : SearchFilter)
    (collectionType : string) : M (list RawResult) :=
  let lookupParams :=
    {| lp_hypotheticals := hypotheticals;
       lp_key_starts_with := when_truthy (sf_key_starts_with filter);
       lp_exclude_key_starts_with :=
         when_truthy (sf_exclude_key_starts_with filter) |} in
  match lookup collection with
  | None => ret []
  | Some f =>
      tell (CallLookup t lookupParams) ;;;
      match f lookupParams with
      | Throws => ret []
      | NotAnArray => ret []
      | Items results => ret (map (with_collection_type collectionType) results)
      end
  end.

Definition performVectorSearch (e : Env) (hypotheticals : list string)
    (searchFilter : SearchFilter) : M (list RawResult) :=
  let results := [] in
  results <-
    (if (sf_collection searchFilter =? "sources")%string
        || (sf_collection searchFilter =? "both")%string
     then
       match smart_sources e with
       | Some c =>
           sourceResults <-
             searchCollection Sources c hypotheticals searchFilter "source" ;;
           ret (results ++ sourceResults)
       | None => ret results
       end
     else ret results) ;;
  results <-
    (if (sf_collection searchFilter =? "blocks")%string
        || (sf_collection searchFilter =? "both")%string
     then
       match smart_blocks e with
       | Some c =>
           blockResults <-
             searchCollection Blocks c hypotheticals searchFilter "block" ;;
           ret (results ++ blockResults)
       | None => ret results
       end
     else ret results) ;;
  ret results.

(** One [try { ... search ... } catch] block of [performLexicalSearch]:
    a throw, and a reply without [map], leave [results] as it was. *)
Definition lexical_one (t : Target) (collection : option Collection)
    (keywords : list string) (searchFilter : SearchFilter)
    (collectionType : string) (results : list RawResult)
    : M (list RawResult) :=
  match collection with
  | Some c =>
      match search c with
      | Some f =>
          let params :=
            {| sp_keywords := keywords;
               sp_limit := sf_limit searchFilter;
               sp_key_starts_with := sf_key_starts_with searchFilter;
               sp_exclude_key_starts_with :=
                 sf_exclude_key_starts_with searchFilter |} in
          tell (CallSearch t params) ;;;
          match f params with
          | Throws => ret results
          | NotAnArray => ret results
          | Items rs =>
              ret (results ++ map (with_collection_type collectionType) rs)
          end
      | None => ret results
      end
  | None => ret results
  end.

(** The keyword attempts of [performLexicalSearch], before its fallback. *)
Definition lexical_attempts (e : Env) (keywords : list string)
    (searchFilter : SearchFilter) : M (list RawResult) :=
  let results := [] in
  results <-
    (if (sf_collection searchFilter =? "sources")%string
        || (sf_collection searchFilter =? "both")%string
     then lexical_one Sources (smart_sources e) keywords searchFilter
            "source" results
     else ret results) ;;
  results <-
    (if (sf_collection searchFilter =? "blocks")%string
        || (sf_collection searchFilter =? "both")%string
     then lexical_one Blocks (smart_blocks e) keywords searchFilter
            "block" results
     else ret results) ;;
  ret results.

Definition performLexicalSearch (e : Env) (keywords : list string)
    (searchFilter : SearchFilter) : M (list RawResult) :=
  results <- lexical_attempts e keywords searchFilter ;;
  if (length results =? 0)%nat
  then performVectorSearch e keywords searchFilter
  else ret results.

(** [getTargetCollection], together with the name of the collection it
    picked (for the call log). *)
Definition getTargetCollection (e : Env) (searchFilter : SearchFilter)
    : Target * option Collection :=
  let collection :=
    Js.or_str_lit (Some (sf_collection searchFilter)) "sources" in
  if (collection =? "sources")%string then (Sources, smart_sources e)
  else if (collection =? "blocks")%string then (Blocks, smart_blocks e)
  else (Sources, smart_sources e).

(** One [case] of the [switch]: [if (targetCollection.m) results = await
    targetCollection.m(direct_vector, {...})].  The reply [Throws] stands for
    an exception escaping the case: the backing call threw, or the target
    collection is [undefined] and reading its method failed. *)
Definition direct_case (t : Target) (targetCollection : option Collection)
    (method : Collection -> option (list Q -> VectorOpts -> Reply))
    (log : Target -> list Q -> VectorOpts -> Call)
    (direct_vector : list Q) (opts : VectorOpts) : M Reply :=
  match targetCollection with
  | None => ret Throws
  | Some c =>
      match method c with
      | None => ret (Items [])
      | Some f => tell (log t direct_vector opts) ;;; ret (f direct_vector opts)
      end
  end.

Definition performDirectVectorSearch (e : Env) (direct_vector : list Q)
    (vector_operation : string) (searchFilter : SearchFilter)
    : M (list RawResult) :=
  let '(t, targetCollection) := getTargetCollection e searchFilter in
  let opts :=
    {| vo_limit := sf_limit searchFilter;
       vo_key_starts_with := sf_key_starts_with searchFilter;
       vo_exclude_key_starts_with := sf_exclude_key_starts_with searchFilter |}
  in
  results <-
    (if (vector_operation =? "nearest")%string then
       direct_case t targetCollection nearest CallNearest direct_vector opts
     else if (vector_operation =? "furthest")%string then
       direct_case t targetCollection furthest CallFurthest direct_vector opts
     else if (vector_operation =? "nearest_to")%string then
       direct_case t targetCollection nearest CallNearest direct_vector opts
     else ret (Items [])) ;;
  let collection_type :=
    if (sf_collection searchFilter =? "sources")%string then "source"
    else if (sf_collection searchFilter =? "blocks")%string then "block"
    else "unknown" in
  match results with
  | Items results => ret (map (with_collection_type collection_type) results)
  | _ =>
      performVectorSearch e
        [("vector search with "
            ++ Js.nat_to_string (length direct_vector)
            ++ " dimensions")%string]
        searchFilter
  end.

(** ** [execute] *)

(** The branch of the [if / else if] chain that a request takes, with the
    parameter that drives it. *)
Inductive Mode :=
| Lexical (keywords : list string)
| DirectVector (direct_vector : list Q) (vector_operation : string)
| Vector (hypotheticals : list string)
| NoQuery.

Definition query_type_of (args : Args) : string :=
  Js.default_to "vector" (a_query_type args).

Definition vector_operation_of (args : Args) : string :=
  Js.default_to "nearest" (a_vector_operation args).

(** [else if (direct_vector) ... else if (hypotheticals &&
    hypotheticals.length > 0) ... else ...] *)
Definition select_non_lexical (args : Args) : Mode :=
  match a_direct_vector args with
  | Some direct_vector => DirectVector direct_vector (vector_operation_of args)
  | None =>
      match a_hypotheticals args with
      | Some hypotheticals =>
          if (0 <? length hypotheticals)%nat then Vector hypotheticals
          else NoQuery
      | None => NoQuery
      end
  end.

(** [if (query_type === "lexical" && keywords) ...] followed by the rest of
    the chain. *)
Definition select_mode (args : Args) : Mode :=
  match (query_type_of args =? "lexical")%string, a_keywords args with
  | true, Some keywords => Lexical keywords
  | _, _ => select_non_lexical args
  end.

Definition dispatch (e : Env) (args : Args) (searchFilter : SearchFilter)
    : M (list RawResult) :=
  match select_mode args with
  | Lexical keywords => performLexicalSearch e keywords searchFilter
  | DirectVector direct_vector vector_operation =>
      performDirectVectorSearch e direct_vector vector_operation searchFilter
  | Vector hypotheticals => performVectorSearch e hypotheticals searchFilter
  | NoQuery => ret []
  end.

(** [search_params] of the response. *)
Record SearchParamsEcho := mkEcho {
  e_query_type : string;
  e_hypotheticals : option (list string);
  e_keywords : option (list string);
  e_direct_vector : option string;
  e_vector_operation : string;
  e_filter : SearchFilter
}.

(** [plugin_info] of the response. *)
Record PluginInfo := mkPluginInfo {
  p_vault_name : string;
  sources_available : bool;
  blocks_available : bool;
  sources_count : nat;
  blocks_count : nat
}.

Record Response := mkResponse {
  results : list FormattedResult;
  count : nat;
  total_before_limit : nat;
  search_params : SearchParamsEcho;
  plugin_info : PluginInfo
}.

(** The two [throw new Error] of [execute]: the environment check, and the
    re-throw of the outer [catch].  Every failure of a backing call is
    recovered inside the search methods, so no modelled path reaches the
    second. *)
Inductive ExecError :=
| EnvironmentNotReady
| LookupFailed.

Inductive Outcome :=
| Threw (err : ExecError)
| Returned (response : Response).

(** [c?.items ? Object.keys(c.items).length : 0] *)
Definition items_count (c : option Collection) : nat :=
  match c with
  | Some c => Js.default_to 0%nat (items c)
  | None => 0%nat
  end.

(** [if (results.length > 0) results =
       get_nearest_until_next_dev_exceeds_std_dev(results)] *)
Definition statistical_filter (results : list RawResult) : list RawResult :=
  if (0 <? length results)%nat
  then Cutoff.get_nearest_until_next_dev_exceeds_std_dev results
  else results.

(** The statistical filter, then the limit, as [execute] applies them to
    what the search returned. *)
Definition filter_and_limit (searchFilter : SearchFilter)
    (results : list RawResult) : list RawResult :=
  let results := statistical_filter results in
  Js.slice0 results (sf_limit searchFilter).

Definition execute (plugin : Plugin) (args : Args) : M Outcome :=
  match env plugin with
  | None => ret (Threw EnvironmentNotReady)
  | Some e =>
      let filter := Js.default_to empty_filter (a_filter args) in
      let searchFilter := make_searchFilter filter in
      results <- dispatch e args searchFilter ;;
      let results := filter_and_limit searchFilter results in
      let formattedResults := map formatResult results in
      ret (Returned
        {| results := formattedResults;
           count := length formattedResults;
           total_before_limit := length results;
           search_params :=
             {| e_query_type := query_type_of args;
                e_hypotheticals := a_hypotheticals args;
                e_keywords := a_keywords args;
                e_direct_vector :=
                  match a_direct_vector args with
                  | Some direct_vector =>
                      Some ("[" ++ Js.nat_to_string (length direct_vector)
                              ++ " dimensions]")%string
                  | None => None
                  end;
                e_vector_operation := vector_operation_of args;
                e_filter := searchFilter |};
           plugin_info :=
             {| p_vault_name := vault_name plugin;
                sources_available := Js.truthy_obj (smart_sources e);
                blocks_available := Js.truthy_obj (smart_blocks e);
                sources_count := items_count (smart_sources e);
                blocks_count := items_count (smart_blocks e) |} |})
  end.

(** ** Notions used to state the properties *)

(** The formatted results of an outcome ([[]] when [execute] threw). *)
Definition results_of (o : Outcome) : list FormattedResult :=
  match o with
  | Returned response => results response
  | Threw _ => []
  end.

Definition is_prefix {A : Type} (p l : list A) : Prop :=
  exists rest, l = p ++ rest.

(** No score inversion: every score is at most the one before it. *)
Fixpoint descendingb (scores : list Q) : bool :=
  match scores with
  | a :: ((b :: _) as rest) => Qle_bool b a && descendingb rest
  | _ => true
  end.

(** No adjacent gap of [results] exceeds the standard deviation whose square
    is [var]. *)
Fixpoint no_cliff (var : Q) (results : list RawResult) : bool :=
  match results with
  | current :: ((next :: _) as rest) =>
      negb (Cutoff.exceeds_std_dev (score_of current) (score_of next) var)
      && no_cliff var rest
  | _ => true
  end.

Definition is_get (c : Call) : bool :=
  match c with
  | CallGet _ _ => true
  | _ => false
  end.

(** A collection that is there but finds nothing: whichever method it has
    resolves to the empty array. *)
Definition finds_nothing (c : Collection) : Prop :=
  (forall f p, lookup c = Some f -> f p = Items [])
  /\ (forall f p, search c = Some f -> f p = Items [])
  /\ (forall f v o, nearest c = Some f -> f v o = Items [])
  /\ (forall f v o, furthest c = Some f -> f v o = Items []).

(** What one collection contributes to a vector search. *)
Definition lookup_part (t : Target) (c : option Collection)
    (hypotheticals : list string) (searchFilter : SearchFilter)
    (collectionType : string) : list RawResult :=
  match c with
  | Some c =>
      value (searchCollection t c hypotheticals searchFilter collectionType)
  | None => []
  end.

(** What one collection contributes to the keyword attempts. *)
Definition search_part (t : Target) (c : option Collection)
    (keywords : list string) (searchFilter : SearchFilter)
    (collectionType : string) : list RawResult :=
  value (lexical_one t c keywords searchFilter collectionType []).

(** A keyword search that contributes nothing: the collection is absent,
    it has no [search], or the call throws or resolves to no result. *)
Definition keyword_search_unavailable (c : option Collection)
    (keywords : list string) (searchFilter : SearchFilter) : Prop :=
  match c with
  | None => True
  | Some c =>
      match search c with
      | None => True
      | Some f =>
          let reply :=
            f {| sp_keywords := keywords;
                 sp_limit := sf_limit searchFilter;
                 sp_key_starts_with := sf_key_starts_with searchFilter;
                 sp_exclude_key_starts_with :=
                   sf_exclude_key_starts_with searchFilter |} in
          reply = Throws \/ reply = NotAnArray \/ reply = Items []
      end
  end.

Definition no_get (c : Call) : Prop := is_get c = false.

Definition searchFilter_of (args : Args) : SearchFilter :=
  make_searchFilter (Js.default_to empty_filter (a_filter args)).

(** The input schema of [getToolDefinition]: [default] and [maximum] of
    [filter.limit]. *)
Definition schema_limit_default : Z := 10.
Definition schema_limit_maximum : Z := 50.

(** The collection a call is sent to. *)
Definition call_target (c : Call) : Target :=
  match c with
  | CallLookup t _ => t
  | CallSearch t _ => t
  | CallNearest t _ _ => t
  | CallFurthest t _ _ => t
  | CallGet t _ => t
  end.

Definition is_lookup (c : Call) : bool :=
  match c with
  | CallLookup _ _ => true
  | _ => false
  end.

Definition is_search (c : Call) : bool :=
  match c with
  | CallSearch _ _ => true
  | _ => false
  end.

Definition is_vector_call (c : Call) : bool :=
  match c with
  | CallNearest _ _ _ => true
  | CallFurthest _ _ _ => true
  | _ => false
  end.


(** One of the three operations of the [switch]. *)
Definition known_operation (s : string) : bool :=
  (s =? "nearest")%string || (s =? "furthest")%string
  || (s =? "nearest_to")%string.

(** The options that [nearest] and [furthest] receive for a filter. *)
Definition vector_opts_of (sf : SearchFilter) : VectorOpts :=
  {| vo_limit := sf_limit sf;
     vo_key_starts_with := sf_key_starts_with sf;
     vo_exclude_key_starts_with := sf_exclude_key_starts_with sf |}.

(** The hypothetical of the fallback of [performDirectVectorSearch]. *)
Definition synthetic_hypothetical (direct_vector : list Q) : string :=
  ("vector search with " ++ Js.nat_to_string (length direct_vector)
     ++ " dimensions")%string.

(** The type that [performDirectVectorSearch] writes on its results. *)
Definition direct_type (sf : SearchFilter) : string :=
  if (sf_collection sf =? "sources")%string then "source"
  else if (sf_collection sf =? "blocks")%string then "block"
  else "unknown".

(** A call carries the filter of the request: a lookup has the key filters
    that are truthy (and no limit), a keyword search and a vector operation
    have the limit and the key filters as they are. *)
Definition forwards_filter (sf : SearchFilter) (c : Call) : Prop :=
  match c with
  | CallLookup _ p =>
      lp_key_starts_with p = when_truthy (sf_key_starts_with sf)
      /\ lp_exclude_key_starts_with p
         = when_truthy (sf_exclude_key_starts_with sf)
      /\ lp_key_starts_with p <> Some ""
      /\ lp_exclude_key_starts_with p <> Some ""
  | CallSearch _ p =>
      sp_limit p = sf_limit sf
      /\ sp_key_starts_with p = sf_key_starts_with sf
      /\ sp_exclude_key_starts_with p = sf_exclude_key_starts_with sf
  | CallNearest _ _ o => o = vector_opts_of sf
  | CallFurthest _ _ o => o = vector_opts_of sf
  | CallGet _ _ => False
  end.


(** The scope tests of the search methods. *)
Definition queries_sources (sf : SearchFilter) : bool :=
  (sf_collection sf =? "sources")%string || (sf_collection sf =? "both")%string.

Definition queries_blocks (sf : SearchFilter) : bool :=
  (sf_collection sf =? "blocks")%string || (sf_collection sf =? "both")%string.

(** The object that a lookup receives for given hypotheticals. *)
Definition lookup_params_of (hypotheticals : list string)
    (sf : SearchFilter) : LookupParams :=
  {| lp_hypotheticals := hypotheticals;
     lp_key_starts_with := when_truthy (sf_key_starts_with sf);
     lp_exclude_key_starts_with :=
       when_truthy (sf_exclude_key_starts_with sf) |}.

(** The object that a keyword search receives. *)
Definition search_params_of (keywords : list string)
    (sf : SearchFilter) : SearchParams :=
  {| sp_keywords := keywords;
     sp_limit := sf_limit sf;
     sp_key_starts_with := sf_key_starts_with sf;
     sp_exclude_key_starts_with := sf_exclude_key_starts_with sf |}.

(** A lookup that yields no array: the collection is absent, it has no
    [lookup], or the call throws or resolves to something else. *)
Definition lookup_fails (c : option Collection) : Prop :=
  match c with
  | None => True
  | Some c =>
      match lookup c with
      | None => True
      | Some f => forall p, f p = Throws \/ f p = NotAnArray
      end
  end.

(** ** The specification's wording *)

Module Spec.

(** First non-empty value of an ordered list of aliases. *)
Fixpoint first_non_empty (aliases : list (option string)) : option string :=
  match aliases with
  | [] => None
  | a :: rest => if Js.truthy_str a then a else first_non_empty rest
  end.

(** The aliases the specification recognises: the direct content field, the
    nested data-content field, the generic text field, and the raw, source
    and block content aliases. *)
Definition content_aliases (r : RawResult) : list (option string) :=
  [r_content r; data_content r; r_text r;
   r_raw_content r; r_source_content r; r_block_content r].

(** [content] and [content_missing] as the specification defines them. *)
Definition normalize_content_by_spec (r : RawResult) : string * bool :=
  match first_non_empty (content_aliases r) with
  | Some s => (s, false)
  | None => ("", true)
  end.

(** The aliases [formatResult] reads. *)
Definition read_aliases (r : RawResult) : list (option string) :=
  [r_content r; data_content r; r_text r].

Definition non_empty {A : Type} (l : option (list A)) : bool :=
  match l with
  | Some (_ :: _) => true
  | _ => false
  end.

(** Mode selection as the specification words it: a lexical hint with a
    non-empty keyword list, else a direct vector, else non-empty
    hypotheticals, else nothing to run. *)
Definition select_mode_by_spec (args : Args) : Mode :=
  match (query_type_of args =? "lexical")%string && non_empty (a_keywords args),
        a_keywords args with
  | true, Some keywords => Lexical keywords
  | _, _ =>
      match a_direct_vector args with
      | Some direct_vector =>
          DirectVector direct_vector (vector_operation_of args)
      | None =>
          match non_empty (a_hypotheticals args), a_hypotheticals args with
          | true, Some hypotheticals => Vector hypotheticals
          | _, _ => NoQuery
          end
      end
  end.

End Spec.

(** ** Test data *)

Module Samples.

Local Open Scope Q_scope.

(** A raw result that carries a key and a score only. *)
Definition scored (k : string) (q : Q) : RawResult :=
  mkRaw (Some k) None (Some q) None None None None None None None
        None None None None None.

(** A collection that answers every lookup with [rs] and has no other
    method. *)
Definition lookup_only (rs : list RawResult) : Collection :=
  {| lookup := Some (fun _ => Items rs);
     search := None; nearest := None; furthest := None; get := None;
     items := Some (length rs) |}.

Definition vector_args (hypotheticals : list string) (limit : option Z)
    : Args :=
  {| a_query_type := None; a_keywords := None; a_direct_vector := None;
     a_vector_operation := None; a_hypotheticals := Some hypotheticals;
     a_filter := Some (mkFilter limit None None None) |}.

(** Two collections, each ranked by descending score. *)
Definition two_ranked_collections : Plugin :=
  {| env := Some
       {| smart_sources :=
            Some (lookup_only [scored "s1" (1#2); scored "s2" (2#5)]);
          smart_blocks :=
            Some (lookup_only [scored "b1" (11#20); scored "b2" 0]) |};
     vault_name := "vault" |}.

(** The all-equal list of the specification. *)
Definition all_equal : list RawResult :=
  [scored "a" (1#2); scored "b" (1#2); scored "c" (1#2); scored "d" (1#2)].

(** The worked list 0.9, 0.85, 0.83, 0.40, 0.35. *)
Definition worked_list : list RawResult :=
  [scored "w1" (90#100); scored "w2" (85#100); scored "w3" (83#100);
   scored "w4" (40#100); scored "w5" (35#100)].



(** A record whose text sits under [raw_content] only. *)
Definition raw_content_only : RawResult :=
  mkRaw (Some "note.md") None (Some (85#100)) None None None None
        (Some "body of the note") None None None None None None None.

(** A record whose text sits under the nested [data.content]; the
    top-level [content] is empty. *)
Definition nested_content_only : RawResult :=
  mkRaw (Some "note.md") None (Some (85#100)) None (Some "")
        (Some (mkData (Some "body of the note"))) None None None None
        None None None None None.

(** A lexical hint, an empty keyword list and a direct vector. *)
Definition lexical_hint_empty_keywords : Args :=
  {| a_query_type := Some "lexical"; a_keywords := Some [];
     a_direct_vector := Some [1]; a_vector_operation := None;
     a_hypotheticals := None; a_filter := None |}.

(** Sources cannot search by keyword, the search of blocks throws; both
    answer a lookup. *)
Definition no_keyword_search : Plugin :=
  {| env := Some
       {| smart_sources := Some (lookup_only [scored "s1" (9#10)]);
          smart_blocks :=
            Some {| lookup := Some (fun _ => Items [scored "b1" (8#10)]);
                    search := Some (fun _ => Throws);
                    nearest := None; furthest := None; get := None;
                    items := None |} |};
     vault_name := "vault" |}.

Definition lexical_args (keywords : list string) : Args :=
  {| a_query_type := Some "lexical"; a_keywords := Some keywords;
     a_direct_vector := None; a_vector_operation := None;
     a_hypotheticals := None; a_filter := None |}.

(** A collection that resolves every key to an entity and supports
    [nearest]. *)
Definition resolving_collection : Collection :=
  {| lookup := None; search := None;
     nearest := Some (fun _ _ => Items [scored "near" (7#10)]);
     furthest := None;
     get := Some (fun k => Some (scored k 1));
     items := Some 1%nat |}.

Definition resolving_plugin : Plugin :=
  {| env := Some {| smart_sources := Some resolving_collection;
                    smart_blocks := None |};
     vault_name := "vault" |}.

Definition nearest_to_args : Args :=
  {| a_query_type := None; a_keywords := None;
     a_direct_vector := Some [1; 0]; a_vector_operation := Some "nearest_to";
     a_hypotheticals := None;
     a_filter := Some (mkFilter None (Some "sources") None None) |}.

(** An environment that is ready but has no collection. *)
Definition ready_without_collections : Plugin :=
  {| env := Some {| smart_sources := None; smart_blocks := None |};
     vault_name := "vault" |}.

(** Sixty results of equal score, all in sources. *)
Definition sixty_in_sources : Plugin :=
  {| env := Some
       {| smart_sources := Some (lookup_only (repeat (scored "x" (1#2)) 60));
          smart_blocks := None |};
     vault_name := "vault" |}.

(** The lookup of sources throws; blocks answer. *)
Definition sources_lookup_throws : Env :=
  {| smart_sources :=
       Some {| lookup := Some (fun _ => Throws); search := None;
               nearest := None; furthest := None; get := None;
               items := None |};
     smart_blocks := Some (lookup_only [scored "b1" (8#10)]) |}.

(** Both collections match keywords and answer lookups. *)
Definition keyword_collection (k : string) : Collection :=
  {| lookup := Some (fun _ => Items [scored "looked-up" (1#2)]);
     search := Some (fun _ => Items [scored k (9#10)]);
     nearest := Some (fun _ _ => Items [scored "near" (7#10)]);
     furthest := Some (fun _ _ => Items [scored "far" (1#10)]);
     get := None; items := None |}.

Definition keyword_env : Env :=
  {| smart_sources := Some (keyword_collection "s-match");
     smart_blocks := Some (keyword_collection "b-match") |}.

Definition keyword_plugin : Plugin :=
  {| env := Some keyword_env; vault_name := "vault" |}.

(** A request with every parameter open. *)
Definition request (query_type : option string)
    (keywords : option (list string)) (direct_vector : option (list Q))
    (vector_operation : option string) (hypotheticals : option (list string))
    (limit : option Z) (collection : option string) : Args :=
  {| a_query_type := query_type; a_keywords := keywords;
     a_direct_vector := direct_vector;
     a_vector_operation := vector_operation;
     a_hypotheticals := hypotheticals;
     a_filter := Some (mkFilter limit collection None None) |}.

(** The search filter of a request for a scope, with the default limit. *)
Definition scope_filter (collection : string) : SearchFilter :=
  make_searchFilter (mkFilter None (Some collection) None None).

(** Sources answer lookups only; [nearest] of sources throws. *)
Definition nearest_throws : Env :=
  {| smart_sources :=
       Some {| lookup := Some (fun _ => Items [scored "fallback" (1#2)]);
               search := None;
               nearest := Some (fun _ _ => Throws);
               furthest := None; get := None; items := None |};
     smart_blocks := None |}.

(** Only blocks exist. *)
Definition blocks_only : Env :=
  {| smart_sources := None;
     smart_blocks := Some (lookup_only [scored "b1" (8#10)]) |}.

(** Two collections whose results, sources first, are already in
    descending order of score. *)
Definition two_collections_descending : Plugin :=
  {| env := Some
       {| smart_sources :=
            Some (lookup_only [scored "s1" (9#10); scored "s2" (8#10)]);
          smart_blocks :=
            Some (lookup_only [scored "b1" (7#10); scored "b2" (1#10)]) |};
     vault_name := "vault" |}.



Definition not_ready : Plugin := {| env := None; vault_name := "vault" |}.

End Samples.

(** * Properties *)

(** ** Lists: prefixes, slices, descending scores *)

Section Prefixes.

Context {A : Type}.

Lemma is_prefix_refl (l : list A) : is_prefix l l.
Proof. exists []. now rewrite app_nil_r. Qed.

Lemma is_prefix_nil (l : list A) : is_prefix [] l.
Proof. now exists l. Qed.

Lemma is_prefix_cons (a : A) (p l : list A) :
  is_prefix p l -> is_prefix (a :: p) (a :: l).
Proof. intros [rest ->]. now exists rest. Qed.

Lemma is_prefix_trans (p q l : list A) :
  is_prefix p q -> is_prefix q l -> is_prefix p l.
Proof.
  intros [r1 ->] [r2 ->]. exists (r1 ++ r2). now rewrite app_assoc.
Qed.

Lemma is_prefix_firstn (n : nat) (l : list A) : is_prefix (firstn n l) l.
Proof. exists (skipn n l). symmetry. apply firstn_skipn. Qed.

Lemma is_prefix_length (p l : list A) :
  is_prefix p l -> (length p <= length l)%nat.
Proof. intros [rest ->]. rewrite length_app. lia. Qed.

Lemma is_prefix_map {B : Type} (f : A -> B) (p l : list A) :
  is_prefix p l -> is_prefix (map f p) (map f l).
Proof. intros [rest ->]. exists (map f rest). apply map_app. Qed.

Lemma slice0_is_prefix (l : list A) (e : Z) : is_prefix (Js.slice0 l e) l.
Proof. unfold Js.slice0. apply is_prefix_firstn. Qed.

Lemma slice0_nonneg (l : list A) (e : Z) :
  0 <= e -> Js.slice0 l e = firstn (Z.to_nat e) l.
Proof.
  intros He. unfold Js.slice0.
  destruct (Z.ltb_spec e 0) as [Hlt | _]; [lia |].
  destruct (Z.le_gt_cases e (Z.of_nat (length l))) as [Hle | Hgt].
  - now rewrite Z.min_l.
  - rewrite Z.min_r by lia. rewrite Nat2Z.id.
    rewrite firstn_all. symmetry. apply firstn_all2. lia.
Qed.


End Prefixes.

Lemma descendingb_prefix (p l : list Q) :
  is_prefix p l -> descendingb l = true -> descendingb p = true.
Proof.
  intros [rest ->]. revert rest.
  induction p as [| a p IH]; intros rest H; [reflexivity |].
  destruct p as [| b p]; [reflexivity |].
  cbn [app descendingb] in H |- *.
  apply andb_true_iff in H as [Hab Hrest].
  rewrite Hab. cbn [andb]. now apply (IH rest).
Qed.

(** ** The call log *)

Lemma value_bind {A B : Type} (m : M A) (f : A -> M B) :
  value (bind m f) = value (f (value m)).
Proof.
  unfold value, bind. destruct m as [a l1]; cbn.
  now destruct (f a).
Qed.

Lemma calls_bind {A B : Type} (m : M A) (f : A -> M B) :
  calls (bind m f) = calls m ++ calls (f (value m)).
Proof.
  unfold value, calls, bind. destruct m as [a l1]; cbn.
  now destruct (f a).
Qed.

Lemma value_ret {A : Type} (a : A) : value (ret a) = a.
Proof. reflexivity. Qed.

Lemma calls_ret {A : Type} (a : A) : calls (ret a) = [].
Proof. reflexivity. Qed.

(** ** The cutoff filter keeps a prefix *)

Lemma loop_is_prefix (var : Q) (results : list RawResult) :
  is_prefix (Cutoff.loop var results) results.
Proof.
  induction results as [| current rest IH]; [apply is_prefix_nil |].
  destruct rest as [| next rest]; [apply is_prefix_nil |].
  cbn [Cutoff.loop]. apply is_prefix_cons.
  destruct (Cutoff.exceeds_std_dev _ _ _); [apply is_prefix_nil | exact IH].
Qed.

Lemma cutoff_is_prefix (results : list RawResult) :
  is_prefix (Cutoff.get_nearest_until_next_dev_exceeds_std_dev results)
            results.
Proof.
  unfold Cutoff.get_nearest_until_next_dev_exceeds_std_dev.
  destruct (length results <=? 2)%nat; [apply is_prefix_refl |].
  cbv zeta.
  destruct (0 <? length (Cutoff.loop _ results))%nat.
  - apply loop_is_prefix.
  - apply slice0_is_prefix.
Qed.

Lemma statistical_filter_is_prefix (results : list RawResult) :
  is_prefix (statistical_filter results) results.
Proof.
  unfold statistical_filter.
  destruct (0 <? length results)%nat;
    [apply cutoff_is_prefix | apply is_prefix_refl].
Qed.

Lemma filter_and_limit_is_prefix (sf : SearchFilter)
    (results : list RawResult) :
  is_prefix (filter_and_limit sf results) results.
Proof.
  unfold filter_and_limit.
  eapply is_prefix_trans; [apply slice0_is_prefix |].
  apply statistical_filter_is_prefix.
Qed.

Lemma filter_and_limit_nil (sf : SearchFilter) : filter_and_limit sf [] = [].
Proof. unfold filter_and_limit, Js.slice0. cbn. apply firstn_nil. Qed.

Lemma cutoff_short_list (results : list RawResult) :
  (length results <= 2)%nat ->
  Cutoff.get_nearest_until_next_dev_exceeds_std_dev results = results.
Proof.
  intros Hlen. unfold Cutoff.get_nearest_until_next_dev_exceeds_std_dev.
  destruct (Nat.leb_spec (length results) 2); [reflexivity | lia].
Qed.

Example cutoff_worked_list :
  map r_key
    (Cutoff.get_nearest_until_next_dev_exceeds_std_dev Samples.worked_list)
  = [Some "w1"; Some "w2"; Some "w3"].
Proof. vm_compute. reflexivity. Qed.

Lemma default_limit :
  sf_limit (make_searchFilter empty_filter) = schema_limit_default.
Proof. reflexivity. Qed.

(** When no adjacent gap exceeds the standard deviation the loop pushes
    every element but the last. *)
Lemma loop_no_cliff (var : Q) (results : list RawResult) :
  no_cliff var results = true ->
  Cutoff.loop var results = removelast results.
Proof.
  induction results as [| current rest IH]; [reflexivity |].
  destruct rest as [| next rest]; [reflexivity |].
  cbn [no_cliff]. intros H.
  apply andb_true_iff in H as [Hgap Hrest].
  apply negb_true_iff in Hgap.
  cbn [Cutoff.loop]. rewrite Hgap.
  change (removelast (current :: next :: rest))
    with (current :: removelast (next :: rest)).
  f_equal. now apply IH.
Qed.

Lemma cutoff_no_cliff (results : list RawResult) :
  (3 <= length results)%nat ->
  no_cliff (Cutoff.variance (Cutoff.scores_of results)) results = true ->
  Cutoff.get_nearest_until_next_dev_exceeds_std_dev results
    = removelast results.
Proof.
  intros Hlen Hgap.
  unfold Cutoff.get_nearest_until_next_dev_exceeds_std_dev.
  destruct (Nat.leb_spec (length results) 2) as [Hle | _]; [lia |].
  cbv zeta. rewrite (loop_no_cliff _ _ Hgap).
  destruct results as [| a [| b rest]]; cbn [length] in Hlen; try lia.
  reflexivity.
Qed.

(** ** The comparison with the standard deviation

    The filter compares squares; over the reals this is the comparison of
    the gap with the square root of the variance that the source writes. *)

Lemma sum_squares_nonneg (m : Q) (scores : list Q) (acc : Q) :
  (0 <= acc)%Q ->
  (0 <= fold_left (fun sum score => sum + (score - m) ^ 2) scores acc)%Q.
Proof.
  revert acc.
  induction scores as [| x scores IH]; intros acc Hacc; cbn [fold_left].
  - exact Hacc.
  - apply IH. pose proof (Qsqr_nonneg (x - m)) as Hsq.
    apply Qle_trans with (0 + 0)%Q; [discriminate |].
    now apply Qplus_le_compat.
Qed.

Lemma variance_nonneg (scores : list Q) : (0 <= Cutoff.variance scores)%Q.
Proof.
  unfold Cutoff.variance, Cutoff.count. cbv zeta.
  pose proof (sum_squares_nonneg (Cutoff.mean scores) scores 0 (Qle_refl 0))
    as Hs.
  destruct scores as [| x scores].
  - cbn. discriminate.
  - apply Qle_shift_div_l.
    + change 0%Q with (inject_Z 0). rewrite <- Zlt_Qlt. cbn [length]. lia.
    + rewrite Qmult_0_l. exact Hs.
Qed.

Lemma exceeds_std_dev_sqrt (c n v : Q) :
  (0 <= v)%Q ->
  Cutoff.exceeds_std_dev c n v = true
  <-> (sqrt (Q2R v) < Rabs (Q2R c - Q2R n))%R.
Proof.
  intros Hv. unfold Cutoff.exceeds_std_dev. rewrite negb_true_iff.
  assert (Hsq : (Qabs (c - n) ^ 2 == (c - n) * (c - n))%Q)
    by (apply Qabs_case; intros _; simpl; ring).
  assert (Hr : Q2R ((c - n) * (c - n)) = Rsqr (Q2R c - Q2R n))
    by (rewrite Q2R_mult, Q2R_minus; reflexivity).
  apply Qle_Rle in Hv. rewrite RMicromega.Q2R_0 in Hv.
  split.
  - intros Hb.
    assert (Hlt : (v < Qabs (c - n) ^ 2)%Q).
    { apply Qnot_le_lt. intros Hle. apply Qle_bool_iff in Hle. congruence. }
    rewrite Hsq in Hlt. apply Qlt_Rlt in Hlt. rewrite Hr in Hlt.
    rewrite <- sqrt_Rsqr_abs. now apply sqrt_lt_1_alt.
  - intros Hlt. rewrite <- sqrt_Rsqr_abs in Hlt.
    apply sqrt_lt_0_alt in Hlt. rewrite <- Hr in Hlt. apply Rlt_Qlt in Hlt.
    rewrite <- Hsq in Hlt.
    destruct (Qle_bool (Qabs (c - n) ^ 2) v) eqn:Hb; [| reflexivity].
    apply Qle_bool_iff in Hb. apply Qlt_not_le in Hlt. contradiction.
Qed.

Lemma exceeds_std_dev_of_scores (c n : Q) (scores : list Q) :
  Cutoff.exceeds_std_dev c n (Cutoff.variance scores) = true
  <-> (sqrt (Q2R (Cutoff.variance scores)) < Rabs (Q2R c - Q2R n))%R.
Proof. apply exceeds_std_dev_sqrt, variance_nonneg. Qed.

(** ** What [execute] returns in a ready environment *)

Lemma map_f_score_formatResult (l : list RawResult) :
  map f_score (map formatResult l) = map score_of l.
Proof. rewrite map_map. reflexivity. Qed.

Lemma execute_not_ready (plugin : Plugin) (args : Args) :
  env plugin = None ->
  execute plugin args = (Threw EnvironmentNotReady, []).
Proof. intros H. unfold execute. now rewrite H. Qed.

Lemma execute_ready (plugin : Plugin) (e : Env) (args : Args) :
  env plugin = Some e ->
  let sf := searchFilter_of args in
  let kept := filter_and_limit sf (value (dispatch e args sf)) in
  exists response,
    value (execute plugin args) = Returned response
    /\ results response = map formatResult kept
    /\ count response = length (map formatResult kept)
    /\ total_before_limit response = length kept
    /\ e_filter (search_params response) = sf
    /\ calls (execute plugin args) = calls (dispatch e args sf).
Proof.
  intros He sf kept. unfold execute. rewrite He.
  fold (searchFilter_of args). fold sf.
  rewrite value_bind, calls_bind. cbn [value calls ret fst snd].
  eexists. split; [reflexivity |]. cbn.
  repeat split; try reflexivity. apply app_nil_r.
Qed.

(** ** Vector and keyword search, collection by collection *)

Lemma scope_both (sf : SearchFilter) :
  sf_collection sf = "both" ->
  ((sf_collection sf =? "sources")%string
     || (sf_collection sf =? "both")%string = true)
  /\ ((sf_collection sf =? "blocks")%string
        || (sf_collection sf =? "both")%string = true).
Proof. intros ->. split; reflexivity. Qed.

Lemma performVectorSearch_value (e : Env) (h : list string)
    (sf : SearchFilter) :
  value (performVectorSearch e h sf)
  = (if (sf_collection sf =? "sources")%string
        || (sf_collection sf =? "both")%string
     then lookup_part Sources (smart_sources e) h sf "source" else [])
    ++ (if (sf_collection sf =? "blocks")%string
           || (sf_collection sf =? "both")%string
        then lookup_part Blocks (smart_blocks e) h sf "block" else []).
Proof.
  unfold performVectorSearch, lookup_part.
  destruct (_ || _), (_ || _),
    (smart_sources e) as [cs |], (smart_blocks e) as [cb |];
    repeat (rewrite value_bind; cbn [value ret fst app]);
    rewrite ?app_nil_r; reflexivity.
Qed.

Lemma performVectorSearch_both (e : Env) (h : list string)
    (sf : SearchFilter) :
  sf_collection sf = "both" ->
  value (performVectorSearch e h sf)
  = lookup_part Sources (smart_sources e) h sf "source"
      ++ lookup_part Blocks (smart_blocks e) h sf "block".
Proof.
  intros Hboth. destruct (scope_both sf Hboth) as [Hs Hb].
  unfold performVectorSearch, lookup_part. rewrite Hs, Hb.
  destruct (smart_sources e) as [cs |], (smart_blocks e) as [cb |];
    repeat (rewrite value_bind; cbn [value ret fst app]);
    rewrite ?app_nil_r; reflexivity.
Qed.

Lemma lexical_one_appends (t : Target) (c : option Collection)
    (k : list string) (sf : SearchFilter) (ct : string)
    (acc : list RawResult) :
  value (lexical_one t c k sf ct acc) = acc ++ search_part t c k sf ct.
Proof.
  unfold search_part, lexical_one.
  destruct c as [c |]; [| cbn; now rewrite app_nil_r].
  destruct (search c) as [f |]; [| cbn; now rewrite app_nil_r].
  rewrite !value_bind.
  destruct (f _); cbn; now rewrite ?app_nil_r.
Qed.

Lemma lexical_attempts_value (e : Env) (k : list string)
    (sf : SearchFilter) :
  value (lexical_attempts e k sf)
  = (if (sf_collection sf =? "sources")%string
        || (sf_collection sf =? "both")%string
     then search_part Sources (smart_sources e) k sf "source" else [])
    ++ (if (sf_collection sf =? "blocks")%string
           || (sf_collection sf =? "both")%string
        then search_part Blocks (smart_blocks e) k sf "block" else []).
Proof.
  unfold lexical_attempts.
  destruct (_ || _), (_ || _);
    rewrite !value_bind; cbn [value ret fst];
    rewrite ?lexical_one_appends, ?app_nil_r; reflexivity.
Qed.

Lemma lexical_attempts_both (e : Env) (k : list string)
    (sf : SearchFilter) :
  sf_collection sf = "both" ->
  value (lexical_attempts e k sf)
  = search_part Sources (smart_sources e) k sf "source"
      ++ search_part Blocks (smart_blocks e) k sf "block".
Proof.
  intros Hboth. destruct (scope_both sf Hboth) as [Hs Hb].
  unfold lexical_attempts. rewrite Hs, Hb.
  rewrite !value_bind. cbn [value ret fst].
  rewrite !lexical_one_appends. reflexivity.
Qed.

Lemma performLexicalSearch_value (e : Env) (k : list string)
    (sf : SearchFilter) :
  value (performLexicalSearch e k sf)
  = match value (lexical_attempts e k sf) with
    | [] => value (performVectorSearch e k sf)
    | found => found
    end.
Proof.
  unfold performLexicalSearch. rewrite value_bind.
  now destruct (value (lexical_attempts e k sf)).
Qed.

(** ** C1 *)

(** C1, as the code has it: nothing re-ranks the merged list.  In a ready
    environment and with scope [both], a vector search merges the sources
    results followed by the blocks results, a keyword search merges the
    sources matches followed by the blocks matches (or, when there is none,
    what the vector search on the keywords merges); the cutoff filter and
    the limit keep a prefix of that list in its order, so the returned
    scores are descending whenever the merged scores already are. *)
Theorem C1_merged_list_keeps_concatenation_order
    (plugin : Plugin) (e : Env) (args : Args) :
  env plugin = Some e ->
  sf_collection (searchFilter_of args) = "both" ->
  let sf := searchFilter_of args in
  let merged := value (dispatch e args sf) in
  (forall h, select_mode args = Vector h ->
     merged = lookup_part Sources (smart_sources e) h sf "source"
                ++ lookup_part Blocks (smart_blocks e) h sf "block")
  /\ (forall k, select_mode args = Lexical k ->
        merged =
          match search_part Sources (smart_sources e) k sf "source"
                  ++ search_part Blocks (smart_blocks e) k sf "block" with
          | [] => lookup_part Sources (smart_sources e) k sf "source"
                    ++ lookup_part Blocks (smart_blocks e) k sf "block"
          | found => found
          end)
  /\ (exists kept,
        is_prefix kept merged
        /\ results_of (value (execute plugin args)) = map formatResult kept)
  /\ (descendingb (map score_of merged) = true ->
      descendingb (map f_score (results_of (value (execute plugin args))))
        = true).
Proof.
  intros He Hboth sf merged.
  destruct (execute_ready plugin e args He)
    as (response & Hval & Hres & _).
  fold sf in Hres. fold merged in Hres.
  assert (Hout : results_of (value (execute plugin args))
                 = map formatResult (filter_and_limit sf merged))
    by (rewrite Hval; exact Hres).
  repeat split.
  - intros h Hmode. unfold merged, dispatch. rewrite Hmode.
    now apply performVectorSearch_both.
  - intros k Hmode. unfold merged, dispatch. rewrite Hmode.
    rewrite performLexicalSearch_value.
    rewrite lexical_attempts_both by assumption.
    rewrite performVectorSearch_both by assumption. reflexivity.
  - exists (filter_and_limit sf merged). split; [| exact Hout].
    apply filter_and_limit_is_prefix.
  - intros Hdesc. rewrite Hout, map_f_score_formatResult.
    apply descendingb_prefix with (l := map score_of merged); [| exact Hdesc].
    apply is_prefix_map, filter_and_limit_is_prefix.
Qed.

Lemma C1_merged_list_keeps_concatenation_order_witness :
  let out :=
    results_of
      (value (execute Samples.two_collections_descending
                (Samples.vector_args ["q"] None))) in
  map f_key out = [Some "s1"; Some "s2"; Some "b1"]
  /\ map f_type out = ["source"; "source"; "block"]
  /\ descendingb (map f_score out) = true.
Proof.
  cbv zeta.
  pose proof (C1_merged_list_keeps_concatenation_order
                Samples.two_collections_descending
                {| smart_sources :=
                     Some (Samples.lookup_only
                             [Samples.scored "s1" (9#10);
                              Samples.scored "s2" (8#10)]);
                   smart_blocks :=
                     Some (Samples.lookup_only
                             [Samples.scored "b1" (7#10);
                              Samples.scored "b2" (1#10)]) |}
                (Samples.vector_args ["q"] None)
                eq_refl eq_refl) as H.
  cbv zeta in H. destruct H as (Hmerged & _ & _ & Hdescending).
  split; [vm_compute; reflexivity |]. split; [vm_compute; reflexivity |].
  apply Hdescending. rewrite (Hmerged ["q"] eq_refl).
  vm_compute. reflexivity.
Defined.

(** C1 as stated fails: two collections, each ranked, scope [both]; the
    returned scores are 1/2, 2/5, 11/20, so a block result follows a source
    result of lower score. *)
Lemma C1_counterexample_score_inversion :
  let args := Samples.vector_args ["q"] None in
  let out := results_of (value (execute Samples.two_ranked_collections args)) in
  select_mode args = Vector ["q"]
  /\ sf_collection (searchFilter_of args) = "both"
  /\ map f_key out = [Some "s1"; Some "s2"; Some "b1"]
  /\ map f_score out = [1#2; 2#5; 11#20]%Q
  /\ descendingb (map f_score out) = false.
Proof. vm_compute. repeat split; reflexivity. Qed.

(** ** C2 *)

(** C2 at the all-equal list [0.5, 0.5, 0.5, 0.5]: no adjacent gap exceeds
    the standard deviation (which is 0), and the filter returns the first
    three elements only; the final element is dropped. *)
Theorem C2_all_equal_scores_lose_final_element :
  let results := Samples.all_equal in
  no_cliff (Cutoff.variance (Cutoff.scores_of results)) results = true
  /\ Cutoff.get_nearest_until_next_dev_exceeds_std_dev results
     = removelast results
  /\ map r_key (Cutoff.get_nearest_until_next_dev_exceeds_std_dev results)
     = [Some "a"; Some "b"; Some "c"]
  /\ Cutoff.get_nearest_until_next_dev_exceeds_std_dev results <> results.
Proof.
  cbv zeta.
  assert (Hgap : no_cliff
                   (Cutoff.variance (Cutoff.scores_of Samples.all_equal))
                   Samples.all_equal = true)
    by (vm_compute; reflexivity).
  assert (Hcut :
            Cutoff.get_nearest_until_next_dev_exceeds_std_dev
              Samples.all_equal = removelast Samples.all_equal)
    by (apply cutoff_no_cliff; [cbn; lia | exact Hgap]).
  split; [exact Hgap |]. split; [exact Hcut |]. split.
  - rewrite Hcut. reflexivity.
  - rewrite Hcut. intros Heq. apply (f_equal (@length RawResult)) in Heq.
    cbn in Heq. discriminate.
Qed.

(** ** C3 *)

Lemma content_of_first_non_empty (r : RawResult) :
  content_of r
  = match Spec.first_non_empty (Spec.read_aliases r) with
    | Some s => s
    | None => ""
    end.
Proof.
  unfold content_of, Spec.read_aliases, Spec.first_non_empty, Js.or_str,
    Js.or_str_lit, Js.truthy_str.
  destruct (r_content r) as [c |], (data_content r) as [d |],
    (r_text r) as [t |]; cbn;
    repeat match goal with
      | |- context [(?s =? "")%string] =>
          destruct (String.eqb_spec s ""); subst; cbn
      end;
    try reflexivity; try congruence.
Qed.

Lemma first_non_empty_is_non_empty (l : list (option string)) (s : string) :
  Spec.first_non_empty l = Some s -> s <> "".
Proof.
  induction l as [| a l IH]; cbn; [discriminate |].
  destruct a as [a |]; cbn; [| exact IH].
  destruct (String.eqb_spec a ""); cbn; [exact IH |].
  intros [= <-]. assumption.
Qed.

Lemma first_non_empty_app_none (l1 l2 : list (option string)) :
  Spec.first_non_empty l2 = None ->
  Spec.first_non_empty (l1 ++ l2) = Spec.first_non_empty l1.
Proof.
  intros H2. induction l1 as [| a l1 IH]; cbn; [exact H2 |].
  now destruct (Js.truthy_str a).
Qed.

(** C3, as the code has it: [content] is the first non-empty value among
    [content], [data.content] and [text], in this order, taken verbatim, and
    it is the empty string exactly when none of the three is non-empty; the
    raw, source and block aliases are not read.  Where these further aliases
    are empty the result is the content the specification asks for, and the
    empty string stands where the specification sets [content_missing]. *)
Theorem C3_content_is_first_of_three_aliases (r : RawResult) :
  content_of r
  = match Spec.first_non_empty [r_content r; data_content r; r_text r] with
    | Some s => s
    | None => ""
    end
  /\ f_content (formatResult r) = content_of r
  /\ (content_of r = ""
      <-> Spec.first_non_empty [r_content r; data_content r; r_text r] = None)
  /\ (Spec.first_non_empty
        [r_raw_content r; r_source_content r; r_block_content r] = None ->
      content_of r = fst (Spec.normalize_content_by_spec r)
      /\ (snd (Spec.normalize_content_by_spec r) = true
          <-> content_of r = "")).
Proof.
  pose proof (content_of_first_non_empty r) as Hc.
  unfold Spec.read_aliases in Hc.
  split; [exact Hc |]. split; [reflexivity |]. split.
  - rewrite Hc.
    destruct (Spec.first_non_empty _) as [s |] eqn:Hs.
    + split; [| discriminate]. intros ->.
      now apply first_non_empty_is_non_empty in Hs.
    + now split.
  - intros Hextra. unfold Spec.normalize_content_by_spec, Spec.content_aliases.
    change [r_content r; data_content r; r_text r; r_raw_content r;
            r_source_content r; r_block_content r]
      with ([r_content r; data_content r; r_text r]
              ++ [r_raw_content r; r_source_content r; r_block_content r]).
    rewrite (first_non_empty_app_none _ _ Hextra), Hc.
    destruct (Spec.first_non_empty _) as [s |] eqn:Hs; cbn.
    + split; [reflexivity |]. split; [discriminate |]. intros ->.
      now apply first_non_empty_is_non_empty in Hs.
    + now split.
Qed.

Lemma C3_content_is_first_of_three_aliases_witness :
  content_of Samples.nested_content_only = "body of the note"
  /\ snd (Spec.normalize_content_by_spec Samples.nested_content_only) = false.
Proof.
  destruct (C3_content_is_first_of_three_aliases Samples.nested_content_only)
    as (_ & _ & _ & H).
  destruct (H eq_refl) as [Hfst Hsnd].
  split; [rewrite Hfst; reflexivity | reflexivity].
Defined.

(** C3 as stated fails: a record whose text is under [raw_content] only is
    formatted with empty [content], although the specification's alias list
    yields the text with [content_missing = false]. *)
Lemma C3_counterexample_raw_content_discarded :
  r_raw_content Samples.raw_content_only = Some "body of the note"
  /\ f_content (formatResult Samples.raw_content_only) = ""
  /\ Spec.normalize_content_by_spec Samples.raw_content_only
     = ("body of the note", false).
Proof. repeat split; reflexivity. Qed.

(** ** C4 *)

Lemma dispatch_NoQuery (e : Env) (args : Args) (sf : SearchFilter) :
  select_mode args = NoQuery -> dispatch e args sf = ret [].
Proof. intros H. unfold dispatch. now rewrite H. Qed.

(** C4, as the code has it: the first rule tests that [keywords] is there,
    not that it is non-empty.  (1) With a lexical hint and a keyword list,
    empty or not, the request is Lexical; (2) else with a direct vector it
    is DirectVector, the operation defaulting to [nearest]; (3) else with
    non-empty hypotheticals it is Vector; (4) else nothing is run: a ready
    environment answers with an empty result list, no call and no error.
    The selection is the one of the specification for every payload whose
    keyword list is not the empty list. *)
Theorem C4_mode_selection_tests_presence_of_keywords (args : Args) :
  (forall k, query_type_of args = "lexical" -> a_keywords args = Some k ->
     select_mode args = Lexical k)
  /\ (forall v, query_type_of args <> "lexical" \/ a_keywords args = None ->
        a_direct_vector args = Some v ->
        select_mode args = DirectVector v (vector_operation_of args)
        /\ (a_vector_operation args = None ->
            vector_operation_of args = "nearest"))
  /\ (forall h, query_type_of args <> "lexical" \/ a_keywords args = None ->
        a_direct_vector args = None ->
        a_hypotheticals args = Some h -> h <> [] ->
        select_mode args = Vector h)
  /\ ((query_type_of args <> "lexical" \/ a_keywords args = None) ->
      a_direct_vector args = None ->
      (a_hypotheticals args = None \/ a_hypotheticals args = Some []) ->
      select_mode args = NoQuery
      /\ forall plugin e, env plugin = Some e ->
           exists response,
             execute plugin args = (Returned response, [])
             /\ results response = [])
  /\ (a_keywords args <> Some [] ->
      select_mode args = Spec.select_mode_by_spec args).
Proof.
  assert (Hnl : query_type_of args <> "lexical" \/ a_keywords args = None ->
                select_mode args = select_non_lexical args).
  { unfold select_mode. intros [Hq | Hk].
    - destruct (String.eqb_spec (query_type_of args) "lexical");
        [contradiction | reflexivity].
    - rewrite Hk. now destruct (_ =? _)%string. }
  repeat split.
  - intros k Hq Hk. unfold select_mode. rewrite Hq, Hk. reflexivity.
  - rewrite (Hnl H). unfold select_non_lexical. now rewrite H0.
  - intros Hop. unfold vector_operation_of. now rewrite Hop.
  - intros h Hcond Hv Hh Hne. rewrite (Hnl Hcond).
    unfold select_non_lexical. rewrite Hv, Hh.
    destruct h; [contradiction | reflexivity].
  - rewrite (Hnl H). unfold select_non_lexical. rewrite H0.
    destruct H1 as [-> | ->]; reflexivity.
  - intros plugin e He.
    assert (Hmode : select_mode args = NoQuery).
    { rewrite (Hnl H). unfold select_non_lexical. rewrite H0.
      destruct H1 as [-> | ->]; reflexivity. }
    unfold execute. rewrite He.
    rewrite (dispatch_NoQuery _ _ _ Hmode).
    cbn. rewrite filter_and_limit_nil. eexists. split; reflexivity.
  - intros Hk. unfold select_mode, Spec.select_mode_by_spec,
      select_non_lexical, Spec.non_empty.
    destruct (query_type_of args =? "lexical")%string;
      destruct (a_keywords args) as [[| k ks] |]; cbn;
      try congruence;
      destruct (a_direct_vector args); try reflexivity;
      destruct (a_hypotheticals args) as [[| h hs] |]; reflexivity.
Qed.

Lemma C4_mode_selection_tests_presence_of_keywords_witness :
  select_mode (Samples.lexical_args ["alpha"]) = Lexical ["alpha"]
  /\ select_mode (Samples.lexical_args ["alpha"])
     = Spec.select_mode_by_spec (Samples.lexical_args ["alpha"]).
Proof.
  destruct (C4_mode_selection_tests_presence_of_keywords
              (Samples.lexical_args ["alpha"])) as (H1 & _ & _ & _ & H5).
  split.
  - apply H1; reflexivity.
  - apply H5. discriminate.
Defined.

(** C4 as stated fails: with a lexical hint, an empty keyword list and a
    direct vector, the code runs the keyword search, where the stated
    precedence selects the direct vector. *)
Lemma C4_counterexample_empty_keywords_are_lexical :
  let args := Samples.lexical_hint_empty_keywords in
  query_type_of args = "lexical"
  /\ a_keywords args = Some []
  /\ select_mode args = Lexical []
  /\ Spec.select_mode_by_spec args = DirectVector [1%Q] "nearest"
  /\ select_mode args <> Spec.select_mode_by_spec args.
Proof. cbv zeta. repeat split; try reflexivity. discriminate. Qed.

(** ** C6 *)

Lemma searchCollection_finds_nothing (t : Target) (c : Collection)
    (h : list string) (sf : SearchFilter) (ct : string) :
  finds_nothing c -> value (searchCollection t c h sf ct) = [].
Proof.
  intros (Hlookup & _). unfold searchCollection.
  destruct (lookup c) as [f |] eqn:Hf; [| reflexivity].
  rewrite value_bind. now rewrite (Hlookup f _ eq_refl).
Qed.

Section NothingToFind.

Variable e : Env.
Hypothesis sources_empty :
  forall c, smart_sources e = Some c -> finds_nothing c.
Hypothesis blocks_empty :
  forall c, smart_blocks e = Some c -> finds_nothing c.

Lemma performVectorSearch_finds_nothing (h : list string)
    (sf : SearchFilter) :
  value (performVectorSearch e h sf) = [].
Proof.
  rewrite performVectorSearch_value. unfold lookup_part.
  assert (Hs : match smart_sources e with
               | Some c => value (searchCollection Sources c h sf "source")
               | None => []
               end = []).
  { destruct (smart_sources e) as [c |] eqn:Hc; [| reflexivity].
    now apply searchCollection_finds_nothing, sources_empty. }
  assert (Hb : match smart_blocks e with
               | Some c => value (searchCollection Blocks c h sf "block")
               | None => []
               end = []).
  { destruct (smart_blocks e) as [c |] eqn:Hc; [| reflexivity].
    now apply searchCollection_finds_nothing, blocks_empty. }
  rewrite Hs, Hb. now destruct (_ || _), (_ || _).
Qed.

Lemma search_part_finds_nothing (t : Target) (c : option Collection)
    (k : list string) (sf : SearchFilter) (ct : string) :
  (forall c', c = Some c' -> finds_nothing c') ->
  search_part t c k sf ct = [].
Proof.
  intros Hc. unfold search_part, lexical_one.
  destruct c as [c' |]; [| reflexivity].
  destruct (Hc c' eq_refl) as (_ & Hsearch & _).
  destruct (search c') as [f |] eqn:Hf; [| reflexivity].
  rewrite value_bind. now rewrite (Hsearch f _ eq_refl).
Qed.

Lemma lexical_attempts_finds_nothing (k : list string) (sf : SearchFilter) :
  value (lexical_attempts e k sf) = [].
Proof.
  rewrite lexical_attempts_value.
  rewrite !search_part_finds_nothing by assumption.
  now destruct (_ || _), (_ || _).
Qed.

Lemma performLexicalSearch_finds_nothing (k : list string)
    (sf : SearchFilter) :
  value (performLexicalSearch e k sf) = [].
Proof.
  rewrite performLexicalSearch_value, lexical_attempts_finds_nothing.
  apply performVectorSearch_finds_nothing.
Qed.

Lemma target_finds_nothing (sf : SearchFilter) (c : Collection) :
  snd (getTargetCollection e sf) = Some c -> finds_nothing c.
Proof.
  unfold getTargetCollection.
  repeat destruct (_ =? _)%string; cbn [snd]; auto.
Qed.

Lemma performDirectVectorSearch_finds_nothing (v : list Q) (op : string)
    (sf : SearchFilter) :
  value (performDirectVectorSearch e v op sf) = [].
Proof.
  unfold performDirectVectorSearch.
  pose proof (target_finds_nothing sf) as Htarget.
  destruct (getTargetCollection e sf) as [t target]. cbn [snd] in Htarget.
  rewrite value_bind.
  set (opts := {| vo_limit := sf_limit sf;
                  vo_key_starts_with := sf_key_starts_with sf;
                  vo_exclude_key_starts_with :=
                    sf_exclude_key_starts_with sf |}).
  assert (Hcase : forall method log,
             (forall c f, target = Some c -> method c = Some f ->
                          f v opts = Items []) ->
             value (direct_case t target method log v opts) = Throws
             \/ value (direct_case t target method log v opts) = Items []).
  { intros method log Hm. unfold direct_case.
    destruct target as [c |]; [| now left].
    destruct (method c) as [f |] eqn:Hf; [| now right].
    rewrite value_bind. cbn [value ret fst]. right.
    now apply (Hm c f). }
  assert (Hnearest : forall c f, target = Some c -> nearest c = Some f ->
                                 f v opts = Items []).
  { intros c f Hc Hf. destruct (Htarget c Hc) as (_ & _ & Hn & _).
    now apply Hn. }
  assert (Hfurthest : forall c f, target = Some c -> furthest c = Some f ->
                                  f v opts = Items []).
  { intros c f Hc Hf. destruct (Htarget c Hc) as (_ & _ & _ & Hn).
    now apply Hn. }
  assert (Hswitch :
            forall r, r = Throws \/ r = Items [] ->
              value (match r with
                     | Items results0 =>
                         ret (map (with_collection_type
                                     (if (sf_collection sf =? "sources")%string
                                      then "source"
                                      else if (sf_collection sf =? "blocks")%string
                                           then "block" else "unknown"))
                                  results0)
                     | _ =>
                         performVectorSearch e
                           [("vector search with "
                               ++ Js.nat_to_string (length v)
                               ++ " dimensions")%string] sf
                     end) = []).
  { intros r [-> | ->]; [apply performVectorSearch_finds_nothing |].
    reflexivity. }
  apply Hswitch.
  destruct (op =? "nearest")%string;
    [apply Hcase, Hnearest |].
  destruct (op =? "furthest")%string;
    [apply Hcase, Hfurthest |].
  destruct (op =? "nearest_to")%string;
    [apply Hcase, Hnearest |].
  now right.
Qed.

Lemma dispatch_finds_nothing (args : Args) (sf : SearchFilter) :
  value (dispatch e args sf) = [].
Proof.
  unfold dispatch. destruct (select_mode args).
  - apply performLexicalSearch_finds_nothing.
  - apply performDirectVectorSearch_finds_nothing.
  - apply performVectorSearch_finds_nothing.
  - reflexivity.
Qed.

End NothingToFind.

(** C6: [execute] fails with the environment-not-ready error exactly when
    the plugin has no environment, and then before any call; no other error
    is raised.  A ready environment whose collections are absent, or present
    but finding nothing, returns a response with an empty result list. *)
Theorem C6_not_ready_is_the_only_failure (plugin : Plugin) (args : Args) :
  (value (execute plugin args) = Threw EnvironmentNotReady
   <-> env plugin = None)
  /\ (env plugin = None -> calls (execute plugin args) = [])
  /\ (forall err, value (execute plugin args) = Threw err ->
        err = EnvironmentNotReady /\ env plugin = None)
  /\ (forall e, env plugin = Some e ->
        (forall c, smart_sources e = Some c -> finds_nothing c) ->
        (forall c, smart_blocks e = Some c -> finds_nothing c) ->
        exists response,
          value (execute plugin args) = Returned response
          /\ results response = []).
Proof.
  assert (Hready : forall e, env plugin = Some e ->
                     exists response,
                       value (execute plugin args) = Returned response).
  { intros e He.
    destruct (execute_ready plugin e args He) as (response & Hval & _).
    now exists response. }
  split; [| split; [| split]].
  - split.
    + intros Hthrew. destruct (env plugin) as [e |] eqn:He; [| reflexivity].
      destruct (Hready e eq_refl) as (response & Hval). congruence.
    + intros He. now rewrite (execute_not_ready _ _ He).
  - intros He. now rewrite (execute_not_ready _ _ He).
  - intros err Hthrew. destruct (env plugin) as [e |] eqn:He.
    + destruct (Hready e eq_refl) as (response & Hval). congruence.
    + rewrite (execute_not_ready _ _ He) in Hthrew.
      cbn in Hthrew. now injection Hthrew as <-.
  - intros e He Hs Hb.
    destruct (execute_ready plugin e args He) as (response & Hval & Hres & _).
    exists response. split; [exact Hval |].
    rewrite Hres, (dispatch_finds_nothing e Hs Hb).
    now rewrite filter_and_limit_nil.
Qed.

Lemma C6_not_ready_is_the_only_failure_witness :
  value (execute Samples.not_ready (Samples.vector_args ["q"] None))
  = Threw EnvironmentNotReady
  /\ exists response,
       value (execute Samples.ready_without_collections
                (Samples.lexical_args ["alpha"])) = Returned response
       /\ results response = [].
Proof.
  split.
  - apply (C6_not_ready_is_the_only_failure Samples.not_ready
             (Samples.vector_args ["q"] None)). reflexivity.
  - destruct (C6_not_ready_is_the_only_failure
                Samples.ready_without_collections
                (Samples.lexical_args ["alpha"])) as (_ & _ & _ & H).
    apply (H {| smart_sources := None; smart_blocks := None |} eq_refl);
      cbn; discriminate.
Defined.

(** ** C7 *)

Lemma search_part_unavailable (t : Target) (c : option Collection)
    (k : list string) (sf : SearchFilter) (ct : string) :
  keyword_search_unavailable c k sf -> search_part t c k sf ct = [].
Proof.
  unfold keyword_search_unavailable, search_part, lexical_one.
  destruct c as [c |]; [| reflexivity].
  destruct (search c) as [f |]; [| reflexivity].
  cbv zeta. rewrite value_bind.
  intros [-> | [-> | ->]]; reflexivity.
Qed.

Lemma Forall_calls_bind {A B : Type} (P : Call -> Prop)
    (m : M A) (f : A -> M B) :
  Forall P (calls m) -> (forall a, Forall P (calls (f a))) ->
  Forall P (calls (bind m f)).
Proof.
  intros Hm Hf. rewrite calls_bind. apply Forall_app. split; [exact Hm |].
  apply Hf.
Qed.

Lemma Forall_calls_ret {A : Type} (P : Call -> Prop) (a : A) :
  Forall P (calls (ret a)).
Proof. constructor. Qed.

(** Every call of a vector search is a lookup of the given hypotheticals. *)
Lemma performVectorSearch_calls_are_lookups (e : Env) (h : list string)
    (sf : SearchFilter) :
  Forall (fun c => exists t p, c = CallLookup t p /\ lp_hypotheticals p = h)
         (calls (performVectorSearch e h sf)).
Proof.
  assert (Hone : forall t c ct,
             Forall (fun c => exists t p,
                       c = CallLookup t p /\ lp_hypotheticals p = h)
                    (calls (searchCollection t c h sf ct))).
  { intros t c ct. unfold searchCollection.
    destruct (lookup c) as [f |]; [| constructor].
    apply Forall_calls_bind.
    - constructor; [| constructor]. eexists _, _. split; reflexivity.
    - intros _. destruct (f _); constructor. }
  unfold performVectorSearch.
  apply Forall_calls_bind.
  - destruct (_ || _); [| constructor].
    destruct (smart_sources e); [| constructor].
    apply Forall_calls_bind; [apply Hone | intros; constructor].
  - intros acc. apply Forall_calls_bind; [| intros; constructor].
    destruct (_ || _); [| constructor].
    destruct (smart_blocks e); [| constructor].
    apply Forall_calls_bind; [apply Hone | intros; constructor].
Qed.

(** C7: in a ready environment, a Lexical request whose keyword attempts
    found nothing in the queried collections (a collection that is absent,
    cannot search by keyword, throws, or matches nothing contributes
    nothing) is answered by the vector search run with the keyword list as
    hypotheticals: after the keyword calls come lookups of the keywords, and
    [execute] returns a response built from what they found, not an error. *)
Theorem C7_empty_lexical_result_retries_as_vector
    (plugin : Plugin) (e : Env) (args : Args) (k : list string) :
  env plugin = Some e ->
  select_mode args = Lexical k ->
  let sf := searchFilter_of args in
  (keyword_search_unavailable (smart_sources e) k sf ->
   keyword_search_unavailable (smart_blocks e) k sf ->
   value (lexical_attempts e k sf) = [])
  /\ (value (lexical_attempts e k sf) = [] ->
      value (dispatch e args sf) = value (performVectorSearch e k sf)
      /\ calls (dispatch e args sf)
         = calls (lexical_attempts e k sf)
             ++ calls (performVectorSearch e k sf)
      /\ Forall (fun c => exists t p,
                   c = CallLookup t p /\ lp_hypotheticals p = k)
                (calls (performVectorSearch e k sf))
      /\ exists response,
           value (execute plugin args) = Returned response
           /\ results response
              = map formatResult
                  (filter_and_limit sf
                     (value (performVectorSearch e k sf)))).
Proof.
  intros He Hmode sf. split.
  - intros Hs Hb. rewrite lexical_attempts_value.
    rewrite (search_part_unavailable _ _ _ _ _ Hs).
    rewrite (search_part_unavailable _ _ _ _ _ Hb).
    now destruct (_ || _), (_ || _).
  - intros Hempty.
    assert (Hvalue : value (dispatch e args sf)
                     = value (performVectorSearch e k sf)).
    { unfold dispatch. rewrite Hmode.
      now rewrite performLexicalSearch_value, Hempty. }
    split; [exact Hvalue |]. split; [| split].
    + unfold dispatch. rewrite Hmode. unfold performLexicalSearch.
      now rewrite calls_bind, Hempty.
    + apply performVectorSearch_calls_are_lookups.
    + destruct (execute_ready plugin e args He)
        as (response & Hval & Hres & _).
      exists response. split; [exact Hval |].
      fold sf in Hres. now rewrite Hres, Hvalue.
Qed.

Lemma C7_empty_lexical_result_retries_as_vector_witness :
  map f_key
    (results_of
       (value (execute Samples.no_keyword_search
                 (Samples.lexical_args ["alpha"]))))
  = [Some "s1"; Some "b1"].
Proof.
  destruct (C7_empty_lexical_result_retries_as_vector
              Samples.no_keyword_search
              {| smart_sources :=
                   Some (Samples.lookup_only [Samples.scored "s1" (9#10)]);
                 smart_blocks :=
                   Some {| lookup :=
                             Some (fun _ =>
                                     Items [Samples.scored "b1" (8#10)]);
                           search := Some (fun _ => Throws);
                           nearest := None; furthest := None; get := None;
                           items := None |} |}
              (Samples.lexical_args ["alpha"]) ["alpha"]
              eq_refl eq_refl) as [Hattempts Hretry].
  cbv zeta in Hattempts, Hretry.
  destruct (Hretry (Hattempts I (or_introl eq_refl)))
    as (_ & _ & _ & response & Hval & Hres).
  rewrite Hval. cbn [results_of]. rewrite Hres.
  vm_compute. reflexivity.
Defined.

(** ** C8 *)

Lemma no_get_searchCollection (t : Target) (c : Collection)
    (h : list string) (sf : SearchFilter) (ct : string) :
  Forall no_get (calls (searchCollection t c h sf ct)).
Proof.
  unfold searchCollection. destruct (lookup c) as [f |]; [| constructor].
  apply Forall_calls_bind.
  - repeat constructor.
  - intros _. destruct (f _); constructor.
Qed.

Lemma no_get_performVectorSearch (e : Env) (h : list string)
    (sf : SearchFilter) :
  Forall no_get (calls (performVectorSearch e h sf)).
Proof.
  eapply Forall_impl; [| apply performVectorSearch_calls_are_lookups].
  intros c (t & p & -> & _). reflexivity.
Qed.

Lemma no_get_lexical_one (t : Target) (c : option Collection)
    (k : list string) (sf : SearchFilter) (ct : string)
    (acc : list RawResult) :
  Forall no_get (calls (lexical_one t c k sf ct acc)).
Proof.
  unfold lexical_one. destruct c as [c |]; [| constructor].
  destruct (search c) as [f |]; [| constructor].
  apply Forall_calls_bind.
  - repeat constructor.
  - intros _. destruct (f _); constructor.
Qed.

Lemma no_get_performLexicalSearch (e : Env) (k : list string)
    (sf : SearchFilter) :
  Forall no_get (calls (performLexicalSearch e k sf)).
Proof.
  unfold performLexicalSearch. apply Forall_calls_bind.
  - unfold lexical_attempts. apply Forall_calls_bind.
    + destruct (_ || _); [apply no_get_lexical_one | constructor].
    + intros acc. apply Forall_calls_bind; [| intros; constructor].
      destruct (_ || _); [apply no_get_lexical_one | constructor].
  - intros found. destruct (_ =? _)%nat;
      [apply no_get_performVectorSearch | constructor].
Qed.

Lemma no_get_direct_case (t : Target) (target : option Collection)
    (method : Collection -> option (list Q -> VectorOpts -> Reply))
    (log : Target -> list Q -> VectorOpts -> Call)
    (v : list Q) (opts : VectorOpts) :
  (forall t v o, no_get (log t v o)) ->
  Forall no_get (calls (direct_case t target method log v opts)).
Proof.
  intros Hlog. unfold direct_case.
  destruct target as [c |]; [| constructor].
  destruct (method c) as [f |]; [| constructor].
  apply Forall_calls_bind; [| intros; constructor].
  constructor; [apply Hlog | constructor].
Qed.

Lemma no_get_performDirectVectorSearch (e : Env) (v : list Q)
    (op : string) (sf : SearchFilter) :
  Forall no_get (calls (performDirectVectorSearch e v op sf)).
Proof.
  unfold performDirectVectorSearch.
  destruct (getTargetCollection e sf) as [t target].
  apply Forall_calls_bind.
  - repeat (destruct (op =? _)%string;
            [apply no_get_direct_case; reflexivity |]).
    constructor.
  - intros [| | found];
      [apply no_get_performVectorSearch
      | apply no_get_performVectorSearch | constructor].
Qed.

Lemma no_get_execute (plugin : Plugin) (args : Args) :
  Forall no_get (calls (execute plugin args)).
Proof.
  unfold execute. destruct (env plugin) as [e |]; [| constructor].
  apply Forall_calls_bind; [| intros; constructor].
  unfold dispatch. destruct (select_mode args).
  - apply no_get_performLexicalSearch.
  - apply no_get_performDirectVectorSearch.
  - apply no_get_performVectorSearch.
  - constructor.
Qed.

(** C8, as the code has it: no entity is ever resolved.  The operation
    [nearest_to] does exactly what [nearest] does with the supplied vector
    (same result, same calls), and no request makes the tool call [get] on
    a collection. *)
Theorem C8_nearest_to_is_nearest
    (plugin : Plugin) (args : Args) (e : Env) (v : list Q)
    (sf : SearchFilter) :
  performDirectVectorSearch e v "nearest_to" sf
  = performDirectVectorSearch e v "nearest" sf
  /\ Forall no_get (calls (performDirectVectorSearch e v "nearest_to" sf))
  /\ Forall no_get (calls (execute plugin args)).
Proof.
  split; [reflexivity |]. split.
  - apply no_get_performDirectVectorSearch.
  - apply no_get_execute.
Qed.

(** C8 as stated fails: the collection resolves every key and supports
    [nearest]; a [nearest_to] request issues a single call, [nearest] with
    the supplied vector, and never attempts a resolution. *)
Lemma C8_counterexample_no_resolution_attempt :
  let run := execute Samples.resolving_plugin Samples.nearest_to_args in
  select_mode Samples.nearest_to_args = DirectVector [1; 0]%Q "nearest_to"
  /\ (exists g, get Samples.resolving_collection = Some g
                /\ forall key, g key <> None)
  /\ calls run
     = [CallNearest Sources [1; 0]%Q
          {| vo_limit := 10; vo_key_starts_with := None;
             vo_exclude_key_starts_with := None |}]
  /\ existsb is_get (calls run) = false
  /\ map f_key (results_of (value run)) = [Some "near"].
Proof.
  cbv zeta. split; [reflexivity |]. split.
  - eexists. split; [reflexivity |]. discriminate.
  - repeat split; reflexivity.
Qed.

(** ** C9 *)

(** C9, as the code has it: [execute] does not validate the filter; the
    maximum of 50 is declared in the input schema only.  In a ready
    environment a request whose limit exceeds 50 is dispatched like any
    other, its limit is echoed unchanged and used to cut the filtered
    results, and a response is returned, not an error. *)
Theorem C9_limit_above_maximum_is_accepted
    (plugin : Plugin) (e : Env) (args : Args) (f : Filter) (l : Z) :
  env plugin = Some e ->
  a_filter args = Some f ->
  fl_limit f = Some l ->
  schema_limit_maximum < l ->
  let sf := searchFilter_of args in
  sf_limit sf = l
  /\ exists response,
       value (execute plugin args) = Returned response
       /\ calls (execute plugin args) = calls (dispatch e args sf)
       /\ sf_limit (e_filter (search_params response)) = l
       /\ results response
          = map formatResult
              (firstn (Z.to_nat l)
                 (statistical_filter (value (dispatch e args sf)))).
Proof.
  intros He Hf Hl Hmax sf.
  assert (Hlimit : sf_limit sf = l).
  { unfold sf, searchFilter_of. rewrite Hf. cbn. now rewrite Hl. }
  split; [exact Hlimit |].
  destruct (execute_ready plugin e args He)
    as (response & Hval & Hres & _ & _ & Hecho & Hcalls).
  exists response. split; [exact Hval |]. split; [exact Hcalls |]. split.
  - fold sf in Hecho. now rewrite Hecho.
  - rewrite Hres. unfold filter_and_limit. fold sf. rewrite Hlimit.
    unfold schema_limit_maximum in Hmax. now rewrite slice0_nonneg by lia.
Qed.

Lemma C9_limit_above_maximum_is_accepted_witness :
  exists response,
    value (execute Samples.two_ranked_collections
             (Samples.vector_args ["q"] (Some 51))) = Returned response
    /\ sf_limit (e_filter (search_params response)) = 51.
Proof.
  destruct (C9_limit_above_maximum_is_accepted
              Samples.two_ranked_collections
              {| smart_sources :=
                   Some (Samples.lookup_only
                           [Samples.scored "s1" (1#2);
                            Samples.scored "s2" (2#5)]);
                 smart_blocks :=
                   Some (Samples.lookup_only
                           [Samples.scored "b1" (11#20);
                            Samples.scored "b2" 0]) |}
              (Samples.vector_args ["q"] (Some 51))
              (mkFilter (Some 51) None None None) 51
              eq_refl eq_refl eq_refl eq_refl)
    as (_ & response & Hval & _ & Hecho & _).
  exists response. split; [exact Hval | exact Hecho].
Defined.

(** C9 as stated fails: a request with limit 51 over sixty results of equal
    score is not rejected; the collection is called and 51 results, more
    than the declared maximum, are returned. *)
Lemma C9_counterexample_limit_51_is_served :
  let args := Samples.vector_args ["q"] (Some 51) in
  let run := execute Samples.sixty_in_sources args in
  fl_limit (Js.default_to empty_filter (a_filter args)) = Some 51
  /\ schema_limit_maximum < 51
  /\ (forall err, value run <> Threw err)
  /\ calls run
     = [CallLookup Sources
          {| lp_hypotheticals := ["q"]; lp_key_starts_with := None;
             lp_exclude_key_starts_with := None |}]
  /\ length (results_of (value run)) = 51%nat.
Proof.
  cbv zeta. split; [reflexivity |]. split; [reflexivity |].
  assert (Hrun : exists response,
             value (execute Samples.sixty_in_sources
                      (Samples.vector_args ["q"] (Some 51)))
             = Returned response).
  { eexists. vm_compute. reflexivity. }
  destruct Hrun as (response & Hrun).
  split; [intros err; rewrite Hrun; discriminate |].
  split; vm_compute; reflexivity.
Qed.

(** * Further properties of the tool *)

(** ** The cutoff filter *)

Lemma loop_head (var : Q) (results : list RawResult) :
  (2 <= length results)%nat ->
  hd_error (Cutoff.loop var results) = hd_error results.
Proof.
  destruct results as [| a [| b rest]]; cbn [length]; try lia.
  reflexivity.
Qed.

Lemma loop_two (var : Q) (a b : RawResult) (rest : list RawResult) :
  Cutoff.loop var (a :: b :: rest)
  = a :: (if Cutoff.exceeds_std_dev (score_of a) (score_of b) var
          then []
          else Cutoff.loop var (b :: rest)).
Proof. reflexivity. Qed.

Lemma loop_length (var : Q) (results : list RawResult) :
  (length (Cutoff.loop var results) <= pred (length results))%nat.
Proof.
  induction results as [| a rest IH]; [cbn; lia |].
  destruct rest as [| b rest]; [cbn; lia |].
  rewrite loop_two. destruct (Cutoff.exceeds_std_dev _ _ _).
  - cbn. lia.
  - cbn [length] in IH |- *. lia.
Qed.

Lemma cutoff_long_list (results : list RawResult) :
  (3 <= length results)%nat ->
  Cutoff.get_nearest_until_next_dev_exceeds_std_dev results
  = Cutoff.loop (Cutoff.variance (Cutoff.scores_of results)) results.
Proof.
  intros Hlen. unfold Cutoff.get_nearest_until_next_dev_exceeds_std_dev.
  destruct (Nat.leb_spec (length results) 2) as [Hle | _]; [lia |].
  cbv zeta.
  pose proof (loop_head (Cutoff.variance (Cutoff.scores_of results)) results)
    as Hhd.
  destruct (Cutoff.loop _ results) as [| x out]; [| reflexivity].
  specialize (Hhd ltac:(lia)).
  destruct results; [cbn in Hlen; lia | discriminate Hhd].
Qed.

Lemma cutoff_head (results : list RawResult) :
  hd_error (Cutoff.get_nearest_until_next_dev_exceeds_std_dev results)
  = hd_error results.
Proof.
  destruct (Nat.le_gt_cases (length results) 2) as [Hle | Hgt].
  - now rewrite cutoff_short_list.
  - rewrite cutoff_long_list by lia. apply loop_head. lia.
Qed.

(** X1: the filter only truncates.  Its output is a prefix of its input
    (same records, same order) and starts with the same record: the first
    result is never filtered out and nothing is reordered. *)
Theorem X1_cutoff_returns_a_prefix_with_the_same_head
    (results : list RawResult) :
  is_prefix (Cutoff.get_nearest_until_next_dev_exceeds_std_dev results)
            results
  /\ hd_error (Cutoff.get_nearest_until_next_dev_exceeds_std_dev results)
     = hd_error results.
Proof. split; [apply cutoff_is_prefix | apply cutoff_head]. Qed.

(** X2: on three or more results the filter returns what its loop pushed:
    at least one record and never the last one, so the output is strictly
    shorter than the input and the [slice(0, Math.min(10, ...))] fallback of
    the final line is not taken. *)
Theorem X2_cutoff_of_three_or_more_is_shorter (results : list RawResult) :
  (3 <= length results)%nat ->
  let out := Cutoff.get_nearest_until_next_dev_exceeds_std_dev results in
  out = Cutoff.loop (Cutoff.variance (Cutoff.scores_of results)) results
  /\ (1 <= length out)%nat
  /\ (length out < length results)%nat.
Proof.
  intros Hlen out. unfold out. rewrite cutoff_long_list by assumption.
  split; [reflexivity |].
  pose proof (loop_length (Cutoff.variance (Cutoff.scores_of results)) results).
  pose proof (loop_head (Cutoff.variance (Cutoff.scores_of results)) results)
    as Hhd.
  split; [| lia].
  specialize (Hhd ltac:(lia)).
  destruct (Cutoff.loop _ results); [| cbn; lia].
  destruct results; [cbn in Hlen; lia | discriminate Hhd].
Qed.

Lemma X2_cutoff_of_three_or_more_is_shorter_witness :
  (1 <= length (Cutoff.get_nearest_until_next_dev_exceeds_std_dev
                  Samples.worked_list))%nat
  /\ (length (Cutoff.get_nearest_until_next_dev_exceeds_std_dev
                Samples.worked_list) < 5)%nat.
Proof.
  assert (Hlen : (3 <= length Samples.worked_list)%nat) by (cbn; lia).
  destruct (X2_cutoff_of_three_or_more_is_shorter Samples.worked_list Hlen)
    as (_ & H1 & H2).
  split; [exact H1 | exact H2].
Defined.

(** Where the loop stops: no gap inside what it pushed exceeds the
    deviation, and when it stopped early the gap after the last record it
    pushed does. *)
Lemma loop_stops_at_first_cliff (var : Q) (results : list RawResult) :
  let out := Cutoff.loop var results in
  no_cliff var out = true
  /\ (S (length out) < length results ->
      exists current next,
        nth_error results (length out - 1) = Some current
        /\ nth_error results (length out) = Some next
        /\ Cutoff.exceeds_std_dev (score_of current) (score_of next) var
           = true)%nat.
Proof.
  cbv zeta.
  induction results as [| a rest IH]; [split; [reflexivity | cbn; lia] |].
  destruct rest as [| b rest]; [split; [reflexivity | cbn; lia] |].
  rewrite loop_two.
  destruct (Cutoff.exceeds_std_dev (score_of a) (score_of b) var) eqn:Hgap.
  - split; [reflexivity |]. intros _. exists a, b. now repeat split.
  - destruct IH as [IHno IHcut].
    pose proof (loop_head var (b :: rest)) as Hhd.
    destruct (Cutoff.loop var (b :: rest)) as [| x out] eqn:Hloop.
    + split; [reflexivity |]. intros Hlt.
      destruct rest as [| c rest]; [cbn in Hlt; lia |].
      cbn [length] in Hhd. specialize (Hhd ltac:(lia)). discriminate Hhd.
    + assert (x = b) as ->.
      { destruct rest as [| c rest]; [discriminate Hloop |].
        cbn [length] in Hhd. specialize (Hhd ltac:(lia)).
        cbn in Hhd. congruence. }
      split.
      * cbn [no_cliff]. rewrite Hgap. exact IHno.
      * intros Hlt. cbn [length] in Hlt, IHcut |- *.
        destruct IHcut as (current & next & Hc & Hn & Hex); [lia |].
        exists current, next. repeat split; [| | exact Hex].
        -- replace (S (S (length out)) - 1)%nat with (S (length out)) by lia.
           replace (S (length out) - 1)%nat with (length out) in Hc by lia.
           destruct out; exact Hc.
        -- exact Hn.
Qed.

(** X3, in exact arithmetic: on three or more results, no adjacent gap
    inside the output exceeds the standard deviation, and unless the output
    is everything but the last record, the gap between the last record kept
    and the first one dropped does: the list is cut at its first cliff.
    The gaps and the deviation are the exact ones (see X5); in the doubles
    of the source a gap that equals the deviation, or comes within rounding
    of it, can fall on the other side of the test and move the cut. *)
Theorem X3_cutoff_cuts_at_the_first_cliff (results : list RawResult) :
  (3 <= length results)%nat ->
  let var := Cutoff.variance (Cutoff.scores_of results) in
  let out := Cutoff.get_nearest_until_next_dev_exceeds_std_dev results in
  no_cliff var out = true
  /\ (S (length out) < length results ->
      exists current next,
        nth_error results (length out - 1) = Some current
        /\ nth_error results (length out) = Some next
        /\ Cutoff.exceeds_std_dev (score_of current) (score_of next) var
           = true)%nat.
Proof.
  intros Hlen var out. unfold out. rewrite cutoff_long_list by assumption.
  apply loop_stops_at_first_cliff.
Qed.

Lemma X3_cutoff_cuts_at_the_first_cliff_witness :
  exists current next,
    nth_error Samples.worked_list 2 = Some current
    /\ nth_error Samples.worked_list 3 = Some next
    /\ Cutoff.exceeds_std_dev (score_of current) (score_of next)
         (Cutoff.variance (Cutoff.scores_of Samples.worked_list)) = true.
Proof.
  assert (Hlen : (3 <= length Samples.worked_list)%nat) by (cbn; lia).
  destruct (X3_cutoff_cuts_at_the_first_cliff Samples.worked_list Hlen)
    as (_ & Hcut).
  assert (Hout : length (Cutoff.get_nearest_until_next_dev_exceeds_std_dev
                           Samples.worked_list) = 3%nat)
    by (vm_compute; reflexivity).
  rewrite Hout in Hcut. apply Hcut. cbn. lia.
Defined.

Lemma exceeds_std_dev_equal_scores (c n var : Q) :
  (c == n)%Q -> (0 <= var)%Q -> Cutoff.exceeds_std_dev c n var = false.
Proof.
  intros Heq Hvar. unfold Cutoff.exceeds_std_dev.
  apply negb_false_iff, Qle_bool_iff.
  assert (Hzero : (Qabs (c - n) ^ 2 == 0)%Q).
  { assert (Hd : (c - n == 0)%Q) by (rewrite Heq; ring).
    rewrite Hd. reflexivity. }
  now rewrite Hzero.
Qed.

(** X4: results of equal score are not separated.  On three or more
    results, when the filter stops early the first record it drops has a
    score different from the last record it keeps. *)
Theorem X4_cutoff_keeps_ties_together
    (results : list RawResult) (current next : RawResult) :
  (3 <= length results)%nat ->
  let out := Cutoff.get_nearest_until_next_dev_exceeds_std_dev results in
  (S (length out) < length results)%nat ->
  nth_error results (length out - 1) = Some current ->
  nth_error results (length out) = Some next ->
  ~ (score_of current == score_of next)%Q.
Proof.
  intros Hlen out Hshort Hcurrent Hnext Heq.
  unfold out in *. rewrite cutoff_long_list in * by assumption.
  destruct (loop_stops_at_first_cliff
              (Cutoff.variance (Cutoff.scores_of results)) results)
    as (_ & Hcut).
  destruct (Hcut Hshort) as (c & n & Hc & Hn & Hex).
  rewrite Hcurrent in Hc. rewrite Hnext in Hn.
  injection Hc as <-. injection Hn as <-.
  rewrite (exceeds_std_dev_equal_scores _ _ _ Heq (variance_nonneg _)) in Hex.
  discriminate.
Qed.

Lemma X4_cutoff_keeps_ties_together_witness :
  Qeq_bool (score_of (Samples.scored "w3" (83#100)))
           (score_of (Samples.scored "w4" (40#100))) = false.
Proof.
  assert (Hlen : (3 <= length Samples.worked_list)%nat) by (cbn; lia).
  assert (Hout : length (Cutoff.get_nearest_until_next_dev_exceeds_std_dev
                           Samples.worked_list) = 3%nat)
    by (vm_compute; reflexivity).
  destruct (Qeq_bool (score_of (Samples.scored "w3" (83#100)))
                     (score_of (Samples.scored "w4" (40#100)))) eqn:Heq;
    [| reflexivity].
  apply Qeq_bool_eq in Heq. exfalso. revert Heq.
  apply (X4_cutoff_keeps_ties_together Samples.worked_list _ _ Hlen);
    rewrite Hout; [cbn; lia | reflexivity | reflexivity].
Defined.

(** X5: the variance that the filter computes is never negative, and the
    test that ends the loop holds exactly when the absolute gap between the
    two scores is greater than the square root of that variance, the
    population standard deviation. *)
Theorem X5_cutoff_test_is_gap_above_standard_deviation
    (results : list RawResult) (currentScore nextScore : Q) :
  let var := Cutoff.variance (Cutoff.scores_of results) in
  (0 <= var)%Q
  /\ (Cutoff.exceeds_std_dev currentScore nextScore var = true
      <-> (sqrt (Q2R var) < Rabs (Q2R currentScore - Q2R nextScore))%R).
Proof.
  cbv zeta. split; [apply variance_nonneg |].
  apply exceeds_std_dev_sqrt, variance_nonneg.
Qed.

Lemma X5_cutoff_test_is_gap_above_standard_deviation_witness :
  (sqrt (Q2R (Cutoff.variance (Cutoff.scores_of Samples.worked_list)))
   < Rabs (Q2R (83#100) - Q2R (40#100)))%R.
Proof.
  apply (X5_cutoff_test_is_gap_above_standard_deviation
           Samples.worked_list (83#100) (40#100)).
  vm_compute. reflexivity.
Defined.

(** ** [execute]: what the filter and the limit let through *)

Lemma statistical_filter_head (found : list RawResult) :
  hd_error (statistical_filter found) = hd_error found.
Proof.
  unfold statistical_filter.
  destruct (0 <? length found)%nat; [apply cutoff_head | reflexivity].
Qed.

Lemma hd_error_firstn {A : Type} (n : nat) (l : list A) :
  (1 <= n)%nat -> hd_error (firstn n l) = hd_error l.
Proof. destruct n; [lia |]. now destruct l. Qed.

Lemma hd_error_map {A B : Type} (f : A -> B) (l : list A) :
  hd_error (map f l) = option_map f (hd_error l).
Proof. now destruct l. Qed.

(** X6: with a limit of at least 1, the first record that the search
    returned is always the first result of the response: neither the filter
    nor the limit can remove it. *)
Theorem X6_first_found_is_first_returned
    (plugin : Plugin) (e : Env) (args : Args) :
  env plugin = Some e ->
  1 <= sf_limit (searchFilter_of args) ->
  hd_error (results_of (value (execute plugin args)))
  = option_map formatResult
      (hd_error (value (dispatch e args (searchFilter_of args)))).
Proof.
  intros He Hlimit.
  destruct (execute_ready plugin e args He) as (response & Hval & Hres & _).
  rewrite Hval. cbn [results_of]. rewrite Hres, hd_error_map.
  unfold filter_and_limit. rewrite slice0_nonneg by lia.
  rewrite hd_error_firstn by lia. now rewrite statistical_filter_head.
Qed.

Lemma X6_first_found_is_first_returned_witness :
  option_map f_key
    (hd_error
       (results_of
          (value (execute Samples.two_ranked_collections
                    (Samples.vector_args ["q"] (Some 1))))))
  = Some (Some "s1").
Proof.
  rewrite (X6_first_found_is_first_returned
             Samples.two_ranked_collections
             {| smart_sources :=
                  Some (Samples.lookup_only
                          [Samples.scored "s1" (1#2);
                           Samples.scored "s2" (2#5)]);
                smart_blocks :=
                  Some (Samples.lookup_only
                          [Samples.scored "b1" (11#20);
                           Samples.scored "b2" 0]) |}
             (Samples.vector_args ["q"] (Some 1)) eq_refl);
    [reflexivity | cbn; lia].
Defined.

Lemma statistical_filter_shorter (found : list RawResult) :
  (3 <= length found)%nat ->
  (length (statistical_filter found) < length found)%nat.
Proof.
  intros Hlen. unfold statistical_filter.
  destruct (Nat.ltb_spec 0 (length found)) as [_ | Hzero]; [| lia].
  rewrite cutoff_long_list by assumption.
  pose proof (loop_length (Cutoff.variance (Cutoff.scores_of found)) found).
  lia.
Qed.

(** X7: when the search returned three records or more, the response never
    holds all of them, whatever the limit: at least the last record found is
    left out. *)
Theorem X7_three_or_more_found_are_never_all_returned
    (plugin : Plugin) (e : Env) (args : Args) :
  env plugin = Some e ->
  (3 <= length (value (dispatch e args (searchFilter_of args))))%nat ->
  (length (results_of (value (execute plugin args)))
   < length (value (dispatch e args (searchFilter_of args))))%nat.
Proof.
  intros He Hlen.
  destruct (execute_ready plugin e args He) as (response & Hval & Hres & _).
  rewrite Hval. cbn [results_of]. rewrite Hres, length_map.
  unfold filter_and_limit.
  pose proof (is_prefix_length _ _
                (slice0_is_prefix
                   (statistical_filter
                      (value (dispatch e args (searchFilter_of args))))
                   (sf_limit (searchFilter_of args)))).
  pose proof (statistical_filter_shorter _ Hlen). lia.
Qed.

Lemma X7_three_or_more_found_are_never_all_returned_witness :
  (length (results_of
             (value (execute Samples.sixty_in_sources
                       (Samples.vector_args ["q"] (Some 1000%Z))))) < 60)%nat.
Proof.
  apply (X7_three_or_more_found_are_never_all_returned
           Samples.sixty_in_sources
           {| smart_sources :=
                Some (Samples.lookup_only
                        (repeat (Samples.scored "x" (1#2)) 60));
              smart_blocks := None |}
           (Samples.vector_args ["q"] (Some 1000)) eq_refl).
  vm_compute. lia.
Defined.

(** X8: a limit of 0 that the caller sends is kept (the default of 10
    applies to an absent limit only): the collections are queried as for any
    other request and the response holds no result, with [count] and
    [total_before_limit] both 0. *)
Theorem X8_explicit_zero_limit_returns_nothing
    (plugin : Plugin) (e : Env) (args : Args) (f : Filter) :
  env plugin = Some e ->
  a_filter args = Some f ->
  fl_limit f = Some 0 ->
  exists response,
    value (execute plugin args) = Returned response
    /\ results response = []
    /\ count response = 0%nat
    /\ total_before_limit response = 0%nat
    /\ calls (execute plugin args)
       = calls (dispatch e args (searchFilter_of args)).
Proof.
  intros He Hf Hl.
  assert (Hlimit : sf_limit (searchFilter_of args) = 0).
  { unfold searchFilter_of. rewrite Hf. cbn. now rewrite Hl. }
  destruct (execute_ready plugin e args He)
    as (response & Hval & Hres & Hcount & Htotal & _ & Hcalls).
  assert (Hkept : filter_and_limit (searchFilter_of args)
                    (value (dispatch e args (searchFilter_of args))) = []).
  { unfold filter_and_limit. rewrite Hlimit.
    now rewrite slice0_nonneg by lia. }
  rewrite Hkept in *. exists response. now repeat split.
Qed.

Lemma X8_explicit_zero_limit_returns_nothing_witness :
  results_of
    (value (execute Samples.two_ranked_collections
              (Samples.vector_args ["q"] (Some 0)))) = []
  /\ sf_limit (searchFilter_of (Samples.vector_args ["q"] None)) = 10.
Proof.
  destruct (X8_explicit_zero_limit_returns_nothing
              Samples.two_ranked_collections
              {| smart_sources :=
                   Some (Samples.lookup_only
                           [Samples.scored "s1" (1#2);
                            Samples.scored "s2" (2#5)]);
                 smart_blocks :=
                   Some (Samples.lookup_only
                           [Samples.scored "b1" (11#20);
                            Samples.scored "b2" 0]) |}
              (Samples.vector_args ["q"] (Some 0))
              (mkFilter (Some 0) None None None)
              eq_refl eq_refl eq_refl)
    as (response & Hval & Hres & _).
  split; [| reflexivity]. rewrite Hval. exact Hres.
Defined.




(** ** Which calls a request makes *)

Section CallsSatisfy.

Variable P : Call -> Prop.

Lemma searchCollection_calls_Forall (t : Target) (c : Collection)
    (h : list string) (sf : SearchFilter) (ct : string) :
  P (CallLookup t (lookup_params_of h sf)) ->
  Forall P (calls (searchCollection t c h sf ct)).
Proof.
  intros HP. unfold searchCollection.
  destruct (lookup c) as [f |]; [| constructor].
  apply Forall_calls_bind.
  - constructor; [exact HP | constructor].
  - intros _. destruct (f _); constructor.
Qed.

Lemma performVectorSearch_calls_Forall (e : Env) (h : list string)
    (sf : SearchFilter) :
  (queries_sources sf = true ->
   P (CallLookup Sources (lookup_params_of h sf))) ->
  (queries_blocks sf = true ->
   P (CallLookup Blocks (lookup_params_of h sf))) ->
  Forall P (calls (performVectorSearch e h sf)).
Proof.
  intros Hs Hb. unfold performVectorSearch.
  change ((sf_collection sf =? "sources")%string
          || (sf_collection sf =? "both")%string) with (queries_sources sf).
  change ((sf_collection sf =? "blocks")%string
          || (sf_collection sf =? "both")%string) with (queries_blocks sf).
  apply Forall_calls_bind.
  - destruct (queries_sources sf); [| constructor].
    destruct (smart_sources e); [| constructor].
    apply Forall_calls_bind; [| intros; constructor].
    now apply searchCollection_calls_Forall, Hs.
  - intros acc. apply Forall_calls_bind; [| intros; constructor].
    destruct (queries_blocks sf); [| constructor].
    destruct (smart_blocks e); [| constructor].
    apply Forall_calls_bind; [| intros; constructor].
    now apply searchCollection_calls_Forall, Hb.
Qed.

Lemma lexical_one_calls_Forall (t : Target) (c : option Collection)
    (k : list string) (sf : SearchFilter) (ct : string)
    (acc : list RawResult) :
  P (CallSearch t (search_params_of k sf)) ->
  Forall P (calls (lexical_one t c k sf ct acc)).
Proof.
  intros HP. unfold lexical_one.
  destruct c as [c |]; [| constructor].
  destruct (search c) as [f |]; [| constructor].
  apply Forall_calls_bind.
  - constructor; [exact HP | constructor].
  - intros _. destruct (f _); constructor.
Qed.

Lemma lexical_attempts_calls_Forall (e : Env) (k : list string)
    (sf : SearchFilter) :
  (queries_sources sf = true ->
   P (CallSearch Sources (search_params_of k sf))) ->
  (queries_blocks sf = true ->
   P (CallSearch Blocks (search_params_of k sf))) ->
  Forall P (calls (lexical_attempts e k sf)).
Proof.
  intros Hs Hb. unfold lexical_attempts.
  change ((sf_collection sf =? "sources")%string
          || (sf_collection sf =? "both")%string) with (queries_sources sf).
  change ((sf_collection sf =? "blocks")%string
          || (sf_collection sf =? "both")%string) with (queries_blocks sf).
  apply Forall_calls_bind.
  - destruct (queries_sources sf); [| constructor].
    now apply lexical_one_calls_Forall, Hs.
  - intros acc. apply Forall_calls_bind; [| intros; constructor].
    destruct (queries_blocks sf); [| constructor].
    now apply lexical_one_calls_Forall, Hb.
Qed.

Lemma performLexicalSearch_calls_Forall (e : Env) (k : list string)
    (sf : SearchFilter) :
  (queries_sources sf = true ->
   P (CallSearch Sources (search_params_of k sf))
   /\ P (CallLookup Sources (lookup_params_of k sf))) ->
  (queries_blocks sf = true ->
   P (CallSearch Blocks (search_params_of k sf))
   /\ P (CallLookup Blocks (lookup_params_of k sf))) ->
  Forall P (calls (performLexicalSearch e k sf)).
Proof.
  intros Hs Hb. unfold performLexicalSearch. apply Forall_calls_bind.
  - apply lexical_attempts_calls_Forall; intros Hq;
      [now apply Hs | now apply Hb].
  - intros found. destruct (_ =? _)%nat; [| constructor].
    apply performVectorSearch_calls_Forall; intros Hq;
      [now apply Hs | now apply Hb].
Qed.

Lemma direct_case_calls_Forall (t : Target) (target : option Collection)
    (method : Collection -> option (list Q -> VectorOpts -> Reply))
    (log : Target -> list Q -> VectorOpts -> Call)
    (v : list Q) (opts : VectorOpts) :
  P (log t v opts) ->
  Forall P (calls (direct_case t target method log v opts)).
Proof.
  intros HP. unfold direct_case.
  destruct target as [c |]; [| constructor].
  destruct (method c) as [f |]; [| constructor].
  apply Forall_calls_bind; [| intros; constructor].
  constructor; [exact HP | constructor].
Qed.

Lemma performDirectVectorSearch_calls_Forall (e : Env) (v : list Q)
    (op : string) (sf : SearchFilter) :
  P (CallNearest (fst (getTargetCollection e sf)) v (vector_opts_of sf)) ->
  P (CallFurthest (fst (getTargetCollection e sf)) v (vector_opts_of sf)) ->
  (queries_sources sf = true ->
   P (CallLookup Sources
        (lookup_params_of [synthetic_hypothetical v] sf))) ->
  (queries_blocks sf = true ->
   P (CallLookup Blocks
        (lookup_params_of [synthetic_hypothetical v] sf))) ->
  Forall P (calls (performDirectVectorSearch e v op sf)).
Proof.
  intros Hn Hf Hs Hb. unfold performDirectVectorSearch.
  destruct (getTargetCollection e sf) as [t target]. cbn [fst] in Hn, Hf.
  apply Forall_calls_bind.
  - destruct (op =? "nearest")%string;
      [now apply direct_case_calls_Forall |].
    destruct (op =? "furthest")%string;
      [now apply direct_case_calls_Forall |].
    destruct (op =? "nearest_to")%string;
      [now apply direct_case_calls_Forall | constructor].
  - intros [| | found]; [| | constructor];
      now apply performVectorSearch_calls_Forall.
Qed.

End CallsSatisfy.

Lemma execute_calls (plugin : Plugin) (args : Args) :
  calls (execute plugin args)
  = match env plugin with
    | Some e => calls (dispatch e args (searchFilter_of args))
    | None => []
    end.
Proof.
  destruct (env plugin) as [e |] eqn:He.
  - now destruct (execute_ready plugin e args He) as (_ & _ & _ & _ & _ & _ & H).
  - now rewrite (execute_not_ready _ _ He).
Qed.

Lemma target_of_scope (e : Env) (sf : SearchFilter) :
  fst (getTargetCollection e sf)
  = (if (sf_collection sf =? "blocks")%string then Blocks else Sources)
  /\ snd (getTargetCollection e sf)
     = (if (sf_collection sf =? "blocks")%string then smart_blocks e
        else smart_sources e).
Proof.
  unfold getTargetCollection, Js.or_str_lit.
  destruct (String.eqb_spec (sf_collection sf) "") as [-> | _];
    [split; reflexivity |].
  destruct (String.eqb_spec (sf_collection sf) "sources") as [-> | _];
    [split; reflexivity |].
  destruct (sf_collection sf =? "blocks")%string; split; reflexivity.
Qed.

(** X10: a request limited to one collection never touches the other.  With
    scope [sources] every call of a request goes to the sources collection,
    with scope [blocks] every call goes to the blocks collection; this holds
    in every mode, fallbacks included. *)
Theorem X10_single_scope_calls_one_collection
    (plugin : Plugin) (args : Args) :
  let sf := searchFilter_of args in
  (sf_collection sf = "sources" ->
   Forall (fun c => call_target c = Sources) (calls (execute plugin args)))
  /\ (sf_collection sf = "blocks" ->
      Forall (fun c => call_target c = Blocks) (calls (execute plugin args))).
Proof.
  cbv zeta. rewrite execute_calls.
  destruct (env plugin) as [e |]; [| split; constructor].
  pose proof (target_of_scope e (searchFilter_of args)) as [Ht _].
  split; intros Hscope; unfold dispatch; destruct (select_mode args);
    try constructor;
    try (apply performLexicalSearch_calls_Forall);
    try (apply performVectorSearch_calls_Forall);
    try (apply performDirectVectorSearch_calls_Forall);
    rewrite ?Ht; unfold queries_sources, queries_blocks;
    rewrite Hscope; cbn; try discriminate; intros; try split; reflexivity.
Qed.

Lemma X10_single_scope_calls_one_collection_witness :
  Forall (fun c => call_target c = Blocks)
    (calls (execute Samples.keyword_plugin
              (Samples.request (Some "lexical") (Some ["alpha"]) None None
                 None None (Some "blocks")))).
Proof.
  apply (X10_single_scope_calls_one_collection Samples.keyword_plugin
           (Samples.request (Some "lexical") (Some ["alpha"]) None None
              None None (Some "blocks"))).
  reflexivity.
Defined.

Lemma when_truthy_not_empty (s : option string) : when_truthy s <> Some "".
Proof.
  unfold when_truthy, Js.truthy_str. destruct s as [s |]; [| discriminate].
  destruct (String.eqb_spec s ""); cbn; congruence.
Qed.

(** X11: every call carries the filter of the request.  A lookup gets the
    key filters only when they are non-empty strings, and no limit; a
    keyword search, [nearest] and [furthest] get the effective limit and the
    key filters unchanged; [get] is never called. *)
Theorem X11_calls_carry_the_request_filter (plugin : Plugin) (args : Args) :
  Forall (forwards_filter (searchFilter_of args))
         (calls (execute plugin args)).
Proof.
  rewrite execute_calls. destruct (env plugin) as [e |]; [| constructor].
  assert (Hlookup : forall t h,
             forwards_filter (searchFilter_of args)
               (CallLookup t (lookup_params_of h (searchFilter_of args)))).
  { intros t h. cbn. repeat split; apply when_truthy_not_empty. }
  assert (Hsearch : forall t k,
             forwards_filter (searchFilter_of args)
               (CallSearch t (search_params_of k (searchFilter_of args)))).
  { intros t k. cbn. now repeat split. }
  unfold dispatch. destruct (select_mode args).
  - apply performLexicalSearch_calls_Forall; intros _; split;
      [apply Hsearch | apply Hlookup | apply Hsearch | apply Hlookup].
  - apply performDirectVectorSearch_calls_Forall;
      try reflexivity; intros _; apply Hlookup.
  - apply performVectorSearch_calls_Forall; intros _; apply Hlookup.
  - constructor.
Qed.

(** X12: the kind of calls follows the mode.  A Vector request issues
    lookups only; a Lexical request never calls [nearest] or [furthest]; a
    DirectVector request never runs a keyword search; a request without
    query parameters issues no call. *)
Theorem X12_calls_follow_the_mode (plugin : Plugin) (args : Args) :
  (forall h, select_mode args = Vector h ->
     Forall (fun c => is_lookup c = true) (calls (execute plugin args)))
  /\ (forall k, select_mode args = Lexical k ->
        Forall (fun c => is_vector_call c = false)
               (calls (execute plugin args)))
  /\ (forall v op, select_mode args = DirectVector v op ->
        Forall (fun c => is_search c = false) (calls (execute plugin args)))
  /\ (select_mode args = NoQuery -> calls (execute plugin args) = []).
Proof.
  rewrite execute_calls.
  destruct (env plugin) as [e |];
    [| repeat split; intros; constructor].
  unfold dispatch. repeat split.
  - intros h ->. apply performVectorSearch_calls_Forall; reflexivity.
  - intros k ->. apply performLexicalSearch_calls_Forall; intros _; split;
      reflexivity.
  - intros v op ->.
    apply performDirectVectorSearch_calls_Forall; reflexivity.
  - now intros ->.
Qed.

Lemma X12_calls_follow_the_mode_witness :
  Forall (fun c => is_lookup c = true)
    (calls (execute Samples.keyword_plugin
              (Samples.request None None None None (Some ["q"]) None None))).
Proof.
  destruct (X12_calls_follow_the_mode Samples.keyword_plugin
              (Samples.request None None None None (Some ["q"]) None None))
    as (H & _).
  apply (H ["q"]). reflexivity.
Defined.

(** ** How many calls a request makes *)

Lemma searchCollection_calls_length (t : Target) (c : Collection)
    (h : list string) (sf : SearchFilter) (ct : string) :
  (length (calls (searchCollection t c h sf ct)) <= 1)%nat.
Proof.
  unfold searchCollection. destruct (lookup c) as [f |]; [| cbn; lia].
  rewrite calls_bind, length_app. destruct (f _); cbn; lia.
Qed.

Lemma performVectorSearch_calls_length (e : Env) (h : list string)
    (sf : SearchFilter) :
  (length (calls (performVectorSearch e h sf)) <= 2)%nat.
Proof.
  unfold performVectorSearch.
  rewrite !calls_bind, !length_app. cbn [calls ret snd length].
  assert (Hone : forall (b : bool) t c ct (acc : list RawResult),
             (length
                (calls
                   (if b then
                      match c with
                      | Some c =>
                          bind (searchCollection t c h sf ct)
                               (fun found => ret (acc ++ found))
                      | None => ret acc
                      end
                    else ret acc)) <= 1)%nat).
  { intros [|] t [c |] ct acc; cbn [calls ret snd length]; try lia.
    rewrite calls_bind, length_app. cbn [calls ret snd length].
    pose proof (searchCollection_calls_length t c h sf ct). lia. }
  pose proof (Hone ((sf_collection sf =? "sources")%string
                    || (sf_collection sf =? "both")%string)
                Sources (smart_sources e) "source" []) as H1.
  match goal with
  | |- (_ + (length (calls (if ?b then _ else _)) + _) <= _)%nat =>
      pose proof (Hone b Blocks (smart_blocks e) "block"
                    (value
                       (if (sf_collection sf =? "sources")%string
                           || (sf_collection sf =? "both")%string
                        then
                          match smart_sources e with
                          | Some c =>
                              bind (searchCollection Sources c h sf "source")
                                   (fun found => ret ([] ++ found))
                          | None => ret []
                          end
                        else ret []))) as H2
  end.
  lia.
Qed.

Lemma lexical_one_calls_length (t : Target) (c : option Collection)
    (k : list string) (sf : SearchFilter) (ct : string)
    (acc : list RawResult) :
  (length (calls (lexical_one t c k sf ct acc)) <= 1)%nat.
Proof.
  unfold lexical_one. destruct c as [c |]; [| cbn; lia].
  destruct (search c) as [f |]; [| cbn; lia].
  rewrite calls_bind, length_app. destruct (f _); cbn; lia.
Qed.

Lemma lexical_attempts_calls_length (e : Env) (k : list string)
    (sf : SearchFilter) :
  (length (calls (lexical_attempts e k sf)) <= 2)%nat.
Proof.
  unfold lexical_attempts.
  rewrite !calls_bind, !length_app. cbn [calls ret snd length].
  assert (Hone : forall (b : bool) t c ct (acc : list RawResult),
             (length
                (calls (if b then lexical_one t c k sf ct acc else ret acc))
              <= 1)%nat).
  { intros [|] t c ct acc; [apply lexical_one_calls_length | cbn; lia]. }
  pose proof (Hone ((sf_collection sf =? "sources")%string
                    || (sf_collection sf =? "both")%string)
                Sources (smart_sources e) "source" []) as H1.
  match goal with
  | |- (_ + (length (calls (if ?b then lexical_one _ _ _ _ _ ?acc else _))
             + _) <= _)%nat =>
      pose proof (Hone b Blocks (smart_blocks e) "block" acc) as H2
  end.
  lia.
Qed.

Lemma performLexicalSearch_calls_length (e : Env) (k : list string)
    (sf : SearchFilter) :
  (length (calls (performLexicalSearch e k sf)) <= 4)%nat.
Proof.
  unfold performLexicalSearch. rewrite calls_bind, length_app.
  pose proof (lexical_attempts_calls_length e k sf).
  pose proof (performVectorSearch_calls_length e k sf).
  destruct (_ =? _)%nat; cbn [calls ret snd length]; lia.
Qed.

Lemma direct_case_calls_length (t : Target) (target : option Collection)
    (method : Collection -> option (list Q -> VectorOpts -> Reply))
    (log : Target -> list Q -> VectorOpts -> Call)
    (v : list Q) (opts : VectorOpts) :
  (length (calls (direct_case t target method log v opts)) <= 1)%nat.
Proof.
  unfold direct_case. destruct target as [c |]; [| cbn; lia].
  destruct (method c) as [f |]; [| cbn; lia].
  rewrite calls_bind, length_app. cbn. lia.
Qed.

Lemma performDirectVectorSearch_calls_length (e : Env) (v : list Q)
    (op : string) (sf : SearchFilter) :
  (length (calls (performDirectVectorSearch e v op sf)) <= 3)%nat.
Proof.
  unfold performDirectVectorSearch.
  destruct (getTargetCollection e sf) as [t target].
  rewrite calls_bind, length_app.
  set (opts := {| vo_limit := sf_limit sf;
                  vo_key_starts_with := sf_key_starts_with sf;
                  vo_exclude_key_starts_with :=
                    sf_exclude_key_starts_with sf |}).
  set (attempt :=
         if (op =? "nearest")%string
         then direct_case t target nearest CallNearest v opts
         else if (op =? "furthest")%string
              then direct_case t target furthest CallFurthest v opts
              else if (op =? "nearest_to")%string
                   then direct_case t target nearest CallNearest v opts
                   else ret (Items [])).
  assert (Hattempt : (length (calls attempt) <= 1)%nat).
  { unfold attempt.
    repeat (destruct (op =? _)%string;
            [apply direct_case_calls_length |]).
    cbn. lia. }
  pose proof (performVectorSearch_calls_length e
                [("vector search with " ++ Js.nat_to_string (length v)
                    ++ " dimensions")%string] sf).
  destruct (value attempt); cbn [calls ret snd length]; lia.
Qed.

(** X13: a request costs few calls.  A Vector request issues at most two
    calls, a DirectVector request at most three (the operation and the two
    lookups of its fallback), a Lexical request at most four (two keyword
    searches and the two lookups of its fallback); no request issues more
    than four. *)
Theorem X13_calls_are_bounded (plugin : Plugin) (args : Args) :
  (length (calls (execute plugin args)) <= 4)%nat
  /\ (forall h, select_mode args = Vector h ->
        (length (calls (execute plugin args)) <= 2)%nat)
  /\ (forall v op, select_mode args = DirectVector v op ->
        (length (calls (execute plugin args)) <= 3)%nat).
Proof.
  rewrite execute_calls.
  destruct (env plugin) as [e |];
    [| repeat split; intros; cbn; lia].
  unfold dispatch. split; [| split].
  - destruct (select_mode args); cbn [calls ret snd length]; try lia.
    + apply performLexicalSearch_calls_length.
    + pose proof (performDirectVectorSearch_calls_length e direct_vector
                    vector_operation (searchFilter_of args)). lia.
    + pose proof (performVectorSearch_calls_length e hypotheticals
                    (searchFilter_of args)). lia.
  - intros h ->. apply performVectorSearch_calls_length.
  - intros v op ->. apply performDirectVectorSearch_calls_length.
Qed.

Lemma X13_calls_are_bounded_witness :
  (length
     (calls (execute Samples.keyword_plugin
               (Samples.request None None None None (Some ["q"]) None None)))
   <= 2)%nat.
Proof.
  destruct (X13_calls_are_bounded Samples.keyword_plugin
              (Samples.request None None None None (Some ["q"]) None None))
    as (_ & H & _).
  apply (H ["q"]). reflexivity.
Defined.

(** ** The type written on the results *)












(** ** Scopes and failing collections *)





Lemma lookup_part_fails (t : Target) (c : option Collection)
    (h : list string) (sf : SearchFilter) (ct : string) :
  lookup_fails c -> lookup_part t c h sf ct = [].
Proof.
  unfold lookup_fails, lookup_part, searchCollection.
  destruct c as [c |]; [| reflexivity].
  destruct (lookup c) as [f |]; [| reflexivity].
  intros Hf. cbv zeta. rewrite value_bind.
  destruct (Hf (lookup_params_of h sf)) as [Hr | Hr];
    unfold lookup_params_of in Hr; now rewrite Hr.
Qed.

(** X16: a lookup that fails in one collection costs the other collection
    nothing.  When the sources lookup throws, is missing or resolves to
    something that is not an array, a vector search returns exactly what the
    blocks lookup contributes, and the other way round. *)
Theorem X16_failed_lookup_leaves_the_other_collection
    (e : Env) (h : list string) (sf : SearchFilter) :
  (lookup_fails (smart_sources e) ->
   value (performVectorSearch e h sf)
   = if queries_blocks sf
     then lookup_part Blocks (smart_blocks e) h sf "block" else [])
  /\ (lookup_fails (smart_blocks e) ->
      value (performVectorSearch e h sf)
      = if queries_sources sf
        then lookup_part Sources (smart_sources e) h sf "source" else []).
Proof.
  split; intros Hfail; rewrite performVectorSearch_value;
    rewrite (lookup_part_fails _ _ _ _ _ Hfail);
    unfold queries_sources, queries_blocks;
    destruct (_ || _), (_ || _); cbn; now rewrite ?app_nil_r.
Qed.

Lemma X16_failed_lookup_leaves_the_other_collection_witness :
  map r_key
    (value (performVectorSearch Samples.sources_lookup_throws ["q"]
              (Samples.scope_filter "both")))
  = [Some "b1"].
Proof.
  destruct (X16_failed_lookup_leaves_the_other_collection
              Samples.sources_lookup_throws ["q"]
              (Samples.scope_filter "both")) as [H _].
  rewrite H; [reflexivity |].
  cbn. intros p. now left.
Defined.

(** X17: when the keyword search finds something, that is the answer: no
    lookup is issued, and the result is the keyword matches, those of
    sources before those of blocks. *)
Theorem X17_keyword_matches_suppress_the_fallback
    (e : Env) (k : list string) (sf : SearchFilter) :
  value (lexical_attempts e k sf) <> [] ->
  performLexicalSearch e k sf = lexical_attempts e k sf
  /\ Forall (fun c => is_search c = true)
            (calls (performLexicalSearch e k sf))
  /\ value (performLexicalSearch e k sf)
     = (if queries_sources sf
        then search_part Sources (smart_sources e) k sf "source" else [])
       ++ (if queries_blocks sf
           then search_part Blocks (smart_blocks e) k sf "block" else []).
Proof.
  intros Hfound.
  assert (Heq : performLexicalSearch e k sf = lexical_attempts e k sf).
  { unfold performLexicalSearch, bind.
    destruct (lexical_attempts e k sf) as [found log]. cbn in Hfound.
    destruct found as [| r found]; [contradiction |].
    cbn. now rewrite app_nil_r. }
  split; [exact Heq |]. rewrite Heq. split.
  - apply lexical_attempts_calls_Forall; reflexivity.
  - apply lexical_attempts_value.
Qed.

Lemma X17_keyword_matches_suppress_the_fallback_witness :
  map r_key
    (value (performLexicalSearch Samples.keyword_env ["alpha"]
              (Samples.scope_filter "both")))
  = [Some "s-match"; Some "b-match"]
  /\ length (calls (performLexicalSearch Samples.keyword_env ["alpha"]
                      (Samples.scope_filter "both"))) = 2%nat.
Proof.
  destruct (X17_keyword_matches_suppress_the_fallback
              Samples.keyword_env ["alpha"] (Samples.scope_filter "both"))
    as (Heq & _ & _).
  - cbn. discriminate.
  - rewrite Heq. split; reflexivity.
Defined.

(** ** Direct vector operations *)

Lemma performDirectVectorSearch_eq (e : Env) (v : list Q) (op : string)
    (sf : SearchFilter) :
  performDirectVectorSearch e v op sf
  = bind
      (let t := fst (getTargetCollection e sf) in
       let target := snd (getTargetCollection e sf) in
       if (op =? "nearest")%string then
         direct_case t target nearest CallNearest v (vector_opts_of sf)
       else if (op =? "furthest")%string then
         direct_case t target furthest CallFurthest v (vector_opts_of sf)
       else if (op =? "nearest_to")%string then
         direct_case t target nearest CallNearest v (vector_opts_of sf)
       else ret (Items []))
      (fun results =>
         match results with
         | Items results =>
             ret (map (with_collection_type (direct_type sf)) results)
         | _ => performVectorSearch e [synthetic_hypothetical v] sf
         end).
Proof.
  unfold performDirectVectorSearch.
  now destruct (getTargetCollection e sf) as [t target].
Qed.

Lemma bind_ret_left {A B : Type} (a : A) (f : A -> M B) :
  bind (ret a) f = f a.
Proof. unfold bind, ret. now destruct (f a). Qed.

Lemma direct_case_present (t : Target) (c : Collection)
    (method : Collection -> option (list Q -> VectorOpts -> Reply))
    (log : Target -> list Q -> VectorOpts -> Call)
    (v : list Q) (opts : VectorOpts)
    (f : list Q -> VectorOpts -> Reply) :
  method c = Some f ->
  direct_case t (Some c) method log v opts = (f v opts, [log t v opts]).
Proof. intros Hm. unfold direct_case. now rewrite Hm. Qed.

Lemma direct_case_unsupported (t : Target) (c : Collection)
    (method : Collection -> option (list Q -> VectorOpts -> Reply))
    (log : Target -> list Q -> VectorOpts -> Call)
    (v : list Q) (opts : VectorOpts) :
  method c = None ->
  direct_case t (Some c) method log v opts = ret (Items []).
Proof. intros Hm. unfold direct_case. now rewrite Hm. Qed.

Lemma unknown_operation (op : string) :
  known_operation op = false ->
  (op =? "nearest")%string = false
  /\ (op =? "furthest")%string = false
  /\ (op =? "nearest_to")%string = false.
Proof.
  unfold known_operation.
  destruct (op =? "nearest")%string, (op =? "furthest")%string,
    (op =? "nearest_to")%string; cbn; intros H; try discriminate;
    now repeat split.
Qed.

(** X18: under the default scope [both] a direct vector operation runs on
    the sources collection alone, and its results are typed [unknown], not
    [source]: [nearest] (also when asked as [nearest_to]) and [furthest]
    issue one call to sources and return its records with that type. *)
Theorem X18_direct_vector_on_both_is_sources_typed_unknown
    (e : Env) (v : list Q) (sf : SearchFilter) (c : Collection)
    (f : list Q -> VectorOpts -> Reply) (rs : list RawResult) :
  sf_collection sf = "both" ->
  smart_sources e = Some c ->
  f v (vector_opts_of sf) = Items rs ->
  (nearest c = Some f ->
   forall op, op = "nearest" \/ op = "nearest_to" ->
     performDirectVectorSearch e v op sf
     = (map (with_collection_type "unknown") rs,
        [CallNearest Sources v (vector_opts_of sf)]))
  /\ (furthest c = Some f ->
      performDirectVectorSearch e v "furthest" sf
      = (map (with_collection_type "unknown") rs,
         [CallFurthest Sources v (vector_opts_of sf)])).
Proof.
  intros Hscope Hc Hreply.
  destruct (target_of_scope e sf) as [Ht Htarget].
  rewrite Hscope in Ht, Htarget. cbn in Ht, Htarget.
  assert (Htype : direct_type sf = "unknown")
    by (unfold direct_type; now rewrite Hscope).
  split.
  - intros Hn op [-> | ->]; rewrite performDirectVectorSearch_eq;
      cbv zeta; rewrite Ht, Htarget, Hc, Htype; cbn [String.eqb Ascii.eqb
        Bool.eqb];
      rewrite (direct_case_present _ _ _ _ _ _ _ Hn), Hreply; reflexivity.
  - intros Hf. rewrite performDirectVectorSearch_eq.
    cbv zeta. rewrite Ht, Htarget, Hc, Htype. cbn [String.eqb Ascii.eqb
      Bool.eqb].
    rewrite (direct_case_present _ _ _ _ _ _ _ Hf), Hreply. reflexivity.
Qed.

Lemma X18_direct_vector_on_both_is_sources_typed_unknown_witness :
  map f_type
    (map formatResult
       (value (performDirectVectorSearch Samples.keyword_env [1%Q]
                 "nearest_to" (Samples.scope_filter "both"))))
  = ["unknown"].
Proof.
  destruct (X18_direct_vector_on_both_is_sources_typed_unknown
              Samples.keyword_env [1%Q] (Samples.scope_filter "both")
              (Samples.keyword_collection "s-match")
              (fun _ _ => Items [Samples.scored "near" (7#10)])
              [Samples.scored "near" (7#10)]
              eq_refl eq_refl eq_refl) as [H _].
  rewrite (H eq_refl "nearest_to" (or_intror eq_refl)). reflexivity.
Defined.

(** X19: an operation that cannot be run gives an empty answer, not a
    fallback.  When the operation is none of [nearest], [furthest] and
    [nearest_to], or when the target collection exists but lacks the method
    of the operation, the direct vector search returns no result and issues
    no call at all. *)
Theorem X19_unsupported_operation_returns_nothing
    (e : Env) (v : list Q) (op : string) (sf : SearchFilter) :
  (known_operation op = false ->
   performDirectVectorSearch e v op sf = ([], []))
  /\ (forall c, snd (getTargetCollection e sf) = Some c ->
        ((op = "nearest" \/ op = "nearest_to") /\ nearest c = None)
        \/ (op = "furthest" /\ furthest c = None) ->
        performDirectVectorSearch e v op sf = ([], [])).
Proof.
  split.
  - intros Hop. destruct (unknown_operation op Hop) as (H1 & H2 & H3).
    rewrite performDirectVectorSearch_eq. cbv zeta.
    now rewrite H1, H2, H3, bind_ret_left.
  - intros c Htarget Hcase. rewrite performDirectVectorSearch_eq.
    cbv zeta. rewrite Htarget.
    destruct Hcase as [[[-> | ->] Hm] | [-> Hm]];
      cbn [String.eqb Ascii.eqb Bool.eqb];
      now rewrite (direct_case_unsupported _ _ _ _ _ _ Hm), bind_ret_left.
Qed.

Lemma X19_unsupported_operation_returns_nothing_witness :
  performDirectVectorSearch Samples.keyword_env [1%Q] "closest"
    (Samples.scope_filter "both") = ([], [])
  /\ performDirectVectorSearch Samples.blocks_only [1%Q] "nearest"
       (Samples.scope_filter "blocks") = ([], []).
Proof.
  split.
  - apply (X19_unsupported_operation_returns_nothing Samples.keyword_env
             [1%Q] "closest" (Samples.scope_filter "both")).
    reflexivity.
  - apply (X19_unsupported_operation_returns_nothing Samples.blocks_only
             [1%Q] "nearest" (Samples.scope_filter "blocks"))
      with (c := Samples.lookup_only [Samples.scored "b1" (8#10)]);
      [reflexivity |].
    left. split; [now left | reflexivity].
Defined.

(** X20: when the target collection does not exist, a direct vector
    operation becomes a vector search: the result and the calls are those of
    the lookup of the single hypothetical
    ["vector search with N dimensions"], N the length of the vector, in the
    collections of the scope. *)
Theorem X20_missing_target_falls_back_to_lookup
    (e : Env) (v : list Q) (op : string) (sf : SearchFilter) :
  snd (getTargetCollection e sf) = None ->
  known_operation op = true ->
  performDirectVectorSearch e v op sf
  = performVectorSearch e [synthetic_hypothetical v] sf.
Proof.
  intros Htarget Hop. rewrite performDirectVectorSearch_eq. cbv zeta.
  rewrite Htarget. unfold known_operation in Hop.
  assert (Habsent : forall method log,
             direct_case (fst (getTargetCollection e sf)) None method log v
               (vector_opts_of sf) = ret Throws) by reflexivity.
  destruct (op =? "nearest")%string;
    [now rewrite Habsent, bind_ret_left |].
  destruct (op =? "furthest")%string;
    [now rewrite Habsent, bind_ret_left |].
  destruct (op =? "nearest_to")%string;
    [now rewrite Habsent, bind_ret_left | discriminate].
Qed.

Lemma X20_missing_target_falls_back_to_lookup_witness :
  synthetic_hypothetical [1; 0; 0]%Q = "vector search with 3 dimensions"
  /\ map r_key
       (value (performDirectVectorSearch Samples.blocks_only [1; 0; 0]%Q
                 "nearest" (Samples.scope_filter "both")))
     = [Some "b1"].
Proof.
  split; [reflexivity |].
  rewrite (X20_missing_target_falls_back_to_lookup Samples.blocks_only
             [1; 0; 0]%Q "nearest" (Samples.scope_filter "both")
             eq_refl eq_refl).
  reflexivity.
Defined.

(** X21: when the backing operation throws, or resolves to something that
    is not an array, the direct vector search answers with the vector search
    of the hypothetical ["vector search with N dimensions"]; the failed call
    is followed by the lookups of that search. *)
Theorem X21_failed_operation_falls_back_to_lookup
    (e : Env) (v : list Q) (sf : SearchFilter) (c : Collection)
    (f : list Q -> VectorOpts -> Reply) :
  snd (getTargetCollection e sf) = Some c ->
  f v (vector_opts_of sf) = Throws \/ f v (vector_opts_of sf) = NotAnArray ->
  let fallback := performVectorSearch e [synthetic_hypothetical v] sf in
  let t := fst (getTargetCollection e sf) in
  (nearest c = Some f ->
   forall op, op = "nearest" \/ op = "nearest_to" ->
     performDirectVectorSearch e v op sf
     = (value fallback,
        CallNearest t v (vector_opts_of sf) :: calls fallback))
  /\ (furthest c = Some f ->
      performDirectVectorSearch e v "furthest" sf
      = (value fallback,
         CallFurthest t v (vector_opts_of sf) :: calls fallback)).
Proof.
  intros Htarget Hreply fallback t.
  assert (Hbind : forall call,
             bind (f v (vector_opts_of sf), [call])
                  (fun results =>
                     match results with
                     | Items results =>
                         ret (map (with_collection_type (direct_type sf))
                                  results)
                     | _ => fallback
                     end)
             = (value fallback, call :: calls fallback)).
  { intros call. unfold bind, value, calls.
    destruct Hreply as [-> | ->]; now destruct fallback. }
  split.
  - intros Hn op [-> | ->]; rewrite performDirectVectorSearch_eq;
      cbv zeta; rewrite Htarget; cbn [String.eqb Ascii.eqb Bool.eqb];
      rewrite (direct_case_present _ _ _ _ _ _ _ Hn); apply Hbind.
  - intros Hf. rewrite performDirectVectorSearch_eq.
    cbv zeta. rewrite Htarget. cbn [String.eqb Ascii.eqb Bool.eqb].
    rewrite (direct_case_present _ _ _ _ _ _ _ Hf). apply Hbind.
Qed.

Lemma X21_failed_operation_falls_back_to_lookup_witness :
  map r_key
    (value (performDirectVectorSearch Samples.nearest_throws [1; 0]%Q
              "nearest" (Samples.scope_filter "sources")))
  = [Some "fallback"]
  /\ length (calls (performDirectVectorSearch Samples.nearest_throws
                      [1; 0]%Q "nearest" (Samples.scope_filter "sources")))
     = 2%nat.
Proof.
  destruct (X21_failed_operation_falls_back_to_lookup
              Samples.nearest_throws [1; 0]%Q
              (Samples.scope_filter "sources")
              {| lookup :=
                   Some (fun _ => Items [Samples.scored "fallback" (1#2)]);
                 search := None;
                 nearest := Some (fun _ _ => Throws);
                 furthest := None; get := None; items := None |}
              (fun _ _ => Throws) eq_refl (or_introl eq_refl)) as [H _].
  rewrite (H eq_refl "nearest" (or_introl eq_refl)).
  split; reflexivity.
Defined.

(** * The limit *)

(** ** C5 *)







(** ** C10 *)



